(** * pixivutil-lrr-updater: a shallow embedding of [main.py]

    The development follows the source file top to bottom:
    - [Py]: the primitives of Python's [str] that [main.py] calls
      ([split], [replace], [strip], [isdigit], [int], [join], [str]);
    - [sanitize_tag] (lines 25-40);
    - the two collaborators of the core, the LANraragi client and the
      PixivUtil2 SQLite database, as records of responses and of tables;
    - [update_archive_metadata] (lines 42-151) and [update_lrr_metadata]
      (lines 153-191) in a small exception-and-trace monad.

    A Python [str] is a [string] whose characters are read as the code
    points 0..255; every literal of the source is ASCII.  A Python [int]
    is a [Z]; [int] converts at most 4300 digits, and SQLite takes an
    integer parameter only when it fits in 64 bits, signed.  Logging is
    advisory and is not modelled. *)

From Stdlib Require Import ZArith Ascii String List Lia.
From stdpp Require Import base option list gmap strings pretty.

Local Open Scope Z_scope.

(* ===================================================================== *)
(** * Part I: definitions                                                 *)
(* ===================================================================== *)

(** ** Python string primitives *)

Module Py.

Definition ord (c : ascii) : Z := Z.of_N (N_of_ascii c).

Fixpoint drop (n : nat) (s : string) : string :=
  match n, s with
  | O, _ => s
  | S n, String _ s' => drop n s'
  | S _, EmptyString => EmptyString
  end.

(** [s.partition(sep)]: the text before the first occurrence of [sep]
    and the text after it; [None] when [sep] does not occur. *)
Fixpoint partition (sep s : string) : option (string * string) :=
  if String.prefix sep s then Some (EmptyString, drop (String.length sep) s)
  else match s with
       | EmptyString => None
       | String c s' =>
           match partition sep s' with
           | Some (a, b) => Some (String c a, b)
           | None => None
           end
       end.

(** [s.split(sep)] for a non-empty [sep]: cut at the first occurrence,
    go on after it.  The fuel is the length of [s]; [split_unfold]
    below shows that it never runs out. *)
Fixpoint split_fuel (n : nat) (sep s : string) : list string :=
  match n with
  | O => [s]
  | S n =>
      match partition sep s with
      | None => [s]
      | Some (a, b) => a :: split_fuel n sep b
      end
  end.

Definition split (sep s : string) : list string :=
  split_fuel (String.length s) sep s.

(** [s.replace(old, new)] for a non-empty [old]: occurrences are found
    left to right and do not overlap. *)
Fixpoint replace_fuel (n : nat) (old new s : string) : string :=
  match n with
  | O => s
  | S n =>
      match partition old s with
      | None => s
      | Some (a, b) => a +:+ new +:+ replace_fuel n old new b
      end
  end.

Definition replace (old new s : string) : string :=
  replace_fuel (String.length s) old new s.

(** [re.sub('[...]', '', s)] for a character class: the characters of
    the class are deleted. *)
Fixpoint re_sub_class (class : ascii -> bool) (s : string) : string :=
  match s with
  | EmptyString => EmptyString
  | String c s' =>
      if class c then re_sub_class class s'
      else String c (re_sub_class class s')
  end.

(** Whitespace as [str.strip] sees it, below code point 256. *)
Definition isspace (c : ascii) : bool :=
  let n := ord c in
  ((9 <=? n) && (n <=? 13)) || ((28 <=? n) && (n <=? 32))
  || (n =? 133) || (n =? 160).

Fixpoint lstrip (s : string) : string :=
  match s with
  | EmptyString => EmptyString
  | String c s' => if isspace c then lstrip s' else s
  end.

Definition rstrip (s : string) : string := String.rev (lstrip (String.rev s)).

Definition strip (s : string) : string := rstrip (lstrip s).

(** The ten ASCII digits. *)
Definition isdecimal_char (c : ascii) : bool :=
  (48 <=? ord c) && (ord c <=? 57).

(** [str.isdigit] also accepts the superscripts U+00B2, U+00B3 and
    U+00B9, which [int] then refuses. *)
Definition isdigit_char (c : ascii) : bool :=
  isdecimal_char c || (ord c =? 178) || (ord c =? 179) || (ord c =? 185).

Fixpoint forallb (p : ascii -> bool) (s : string) : bool :=
  match s with
  | EmptyString => true
  | String c s' => p c && forallb p s'
  end.

Definition nonempty (s : string) : bool :=
  match s with EmptyString => false | String _ _ => true end.

Definition isdigit (s : string) : bool := nonempty s && forallb isdigit_char s.

Fixpoint int_go (acc : Z) (s : string) : Z :=
  match s with
  | EmptyString => acc
  | String c s' => int_go (10 * acc + (ord c - 48)) s'
  end.

(** [sys.get_int_max_str_digits()], as Python ships it. *)
Definition int_max_str_digits : nat := 4300.

(** [int(s)] at the one place the source calls it on a [str]: [s] has
    passed [isdigit], so it has no sign, blank or underscore.  [None]
    is [ValueError]: for a digit that is not decimal, and for a text of
    more than [int_max_str_digits] digits, leading zeros counted. *)
Definition int (s : string) : option Z :=
  if nonempty s && forallb isdecimal_char s
     && (String.length s <=? int_max_str_digits)%nat
  then Some (int_go 0 s) else None.

(** [sep.join(l)]. *)
Definition join (sep : string) (l : list string) : string := String.concat sep l.

(** [str(n)] and [f"{n}"] for an [int]. *)
Definition str (n : Z) : string := pretty n.

(** [sub in s]. *)
Definition contains (sub s : string) : bool :=
  match partition sub s with Some _ => true | None => false end.

End Py.

(** ** [sanitize_tag], lines 25-40 *)

(** The character class of line 29: double quote, question mark,
    asterisk, percent, dollar, colon. *)
Definition reserved (c : ascii) : bool :=
  match c with
  | "034"%char | "?"%char | "*"%char | "%"%char | "$"%char | ":"%char => true
  | _ => false
  end.

Definition sanitize_tag (text : string) : string :=
  let sanitized := text in
  let sanitized := Py.re_sub_class reserved sanitized in
  let sanitized := Py.replace "_" " " sanitized in
  let sanitized := Py.replace " -" " " sanitized in
  sanitized.

(** ** Outcomes, collaborators and the monad *)

(** [TaskResult], lines 19-22, with its [.value]. *)
Inductive TaskResult := SUCCESS | PIXIVUTIL_NO_METADATA.

Definition value (r : TaskResult) : string :=
  match r with
  | SUCCESS => "SUCCESS"
  | PIXIVUTIL_NO_METADATA => "PIXIVUTIL_NO_METADATA"
  end.

(** The exceptions that can leave the two functions.  [Exception] is the
    plain [raise Exception(msg)] of the source; [OverflowError] is what
    the database driver raises for an integer parameter that SQLite
    cannot hold; the three network classes are the ones named by the
    [except] clause of lines 138-142.  Any other exception is given by
    the name of its class and the names of the classes it inherits
    from. *)
Inductive PyExn :=
| Exception (msg : string)
| IndexError
| ValueError
| OverflowError
| ClientConnectionError
| ClientConnectorDNSError
| TimeoutError
| OtherError (name : string) (bases : list string).

(** The [err] half of a client reply: [err.status], [err.error]. *)
Record LRRError := { status : Z; error : string }.

(** The fields of a [get_archive_metadata] response that the source reads. *)
Record ArchiveMetadata := { filename : string; tags : string }.

Inductive Request :=
| GetShinobuStatus
| GetUntaggedArchives
| GetArchiveMetadata (arcid : string)
| UpdateArchiveMetadata (arcid title tags summary : string).

(** What the process does to the outside, in order. *)
Inductive Event :=
| Call (r : Request)
| Sleep (tts : Z).

(** One [update_archive_metadata] call of the client either returns
    [(response, err)] or raises. *)
Inductive UpdateReply :=
| Replied (err : option LRRError)
| Raised (e : PyExn).

(** The LANraragi server as the client shows it.  Every reply may depend
    on how many remote calls the run has made before (the first argument),
    so a lock can clear and an archive can change between calls. *)
Record LRRClient := {
  get_shinobu_status : nat -> option LRRError;
  get_untagged_archives : nat -> LRRError + list string;
  get_archive_metadata : nat -> string -> LRRError + ArchiveMetadata;
  update_archive_metadata_api : nat -> string -> string -> string -> string -> UpdateReply
}.

(** The PixivUtil2 database: the rows of the tables the queries read, in
    scan order, and the [(type, name)] columns of [sqlite_master]. *)
Record Database := {
  sqlite_master : list (string * string);
  pixiv_master_image : list (Z * Z * string * string);
  pixiv_master_member : list (Z * string);
  pixiv_image_to_tag : list (Z * string);
  pixiv_tag_translation : list (string * string * string);
  pixiv_date_info : list (Z * Z * Z)
}.

Inductive outcome (A : Type) :=
| Ret (a : A)
| Raise (e : PyExn)
| OutOfFuel.
Arguments Ret {A} a.
Arguments Raise {A} e.
Arguments OutOfFuel {A}.

(** A computation reads the trace so far and extends it. *)
Definition M (A : Type) : Type := list Event -> outcome A * list Event.

Definition ret {A} (a : A) : M A := fun t => (Ret a, t).
Definition raise {A} (e : PyExn) : M A := fun t => (Raise e, t).
Definition out_of_fuel {A} : M A := fun t => (OutOfFuel, t).
Definition bind {A B} (m : M A) (k : A -> M B) : M B :=
  fun t =>
    match m t with
    | (Ret a, t') => k a t'
    | (Raise e, t') => (Raise e, t')
    | (OutOfFuel, t') => (OutOfFuel, t')
    end.
Definition lift {A} (o : outcome A) : M A := fun t => (o, t).

Notation "'do' x <- m ; k" := (bind m (fun x => k))
  (at level 10, x name, m at level 100, k at level 200).

Definition is_call (e : Event) : bool :=
  match e with Call _ => true | Sleep _ => false end.

(** The number of remote calls made so far. *)
Definition n_calls (t : list Event) : nat := length (List.filter is_call t).

Definition emit (e : Event) : M unit := fun t => (Ret tt, t ++ [e]).

Definition sleep (tts : Z) : M unit := emit (Sleep tts).

(** A remote call: the reply is the server's for this point of the run,
    and the call is recorded. *)
Definition remote {A} (r : Request) (reply : nat -> A) : M A :=
  fun t => (Ret (reply (n_calls t)), t ++ [Call r]).

(** [cursor.fetchone()]. *)
Definition fetchone {A} (rows : list A) : option A := head rows.

(** SQLite keeps an INTEGER in 64 bits, signed. *)
Definition sqlite_integer (n : Z) : bool :=
  (- 2 ^ 63 <=? n) && (n <=? 2 ^ 63 - 1).

(** Passing a Python [int] as the parameter of a query: the driver
    raises [OverflowError] when SQLite cannot hold it. *)
Definition bind_parameter (n : Z) : outcome unit :=
  if sqlite_integer n then Ret tt else Raise OverflowError.

(** The rows of [pixiv_master_image] with the given id; an id that is
    no SQLite INTEGER is the id of no stored row. *)
Definition select_master_image (db : Database) (pixiv_id : Z) :=
  filter (fun r : Z * Z * string * string =>
            r.1.1.1 = pixiv_id /\ sqlite_integer r.1.1.1 = true)
    (pixiv_master_image db).

Definition select_member_name (db : Database) (member_id : Z) : list string :=
  snd <$> filter (fun r : Z * string => r.1 = member_id) (pixiv_master_member db).

Definition select_tag_ids (db : Database) (pixiv_id : Z) : list string :=
  snd <$> filter (fun r : Z * string => r.1 = pixiv_id) (pixiv_image_to_tag db).

Definition select_en_translation (db : Database) (tag_id : string) : list string :=
  snd <$> filter (fun r : string * string * string => r.1.2 = "en" /\ r.1.1 = tag_id)
            (pixiv_tag_translation db).

Definition select_date_info (db : Database) (pixiv_id : Z) : list (Z * Z) :=
  (fun r : Z * Z * Z => (r.1.2, r.2)) <$>
    filter (fun r : Z * Z * Z => r.1.1 = pixiv_id) (pixiv_date_info db).

Definition select_table (db : Database) (tb_name : string) : list string :=
  snd <$> filter (fun r : string * string => r.1 = "table" /\ r.2 = tb_name)
            (sqlite_master db).

(** ** [update_archive_metadata], lines 42-151 *)

Definition max_retries : Z := 3.

(** The classes of the [except] clause, lines 138-142. *)
Definition caught_classes : list string :=
  ["ClientConnectionError"; "ClientConnectorDNSError"; "TimeoutError"].

(** What the clause catches: an instance of one of the three classes or
    of a class that inherits from one of them.  Classes are told apart
    by their names. *)
Definition transient_network (e : PyExn) : bool :=
  match e with
  | ClientConnectionError | ClientConnectorDNSError | TimeoutError => true
  | OtherError name bases =>
      existsb (fun c => bool_decide (c ∈ caught_classes)) (name :: bases)
  | _ => false
  end.

(** Lines 61-66: the second piece of the split at [pixiv_], stripped,
    must pass [isdigit]; [split(...)[1]] raises [IndexError] when there
    is no second piece, [int] raises [ValueError] for what it does not
    convert. *)
Definition parse_pixiv_id (filename : string) : outcome Z :=
  match Py.split "pixiv_" filename !! 1%nat with
  | None => Raise IndexError
  | Some piece =>
      let pixiv_id := Py.strip piece in
      if negb (Py.isdigit pixiv_id) then
        Raise (Exception ("Invalid Pixiv ID format from filename: " +:+ filename))
      else
        match Py.int pixiv_id with
        | Some pixiv_id => Ret pixiv_id
        | None => Raise ValueError
        end
  end.

Section Pipeline.

(** [set_iter l] is the order in which Python iterates over [set(l)];
    the language leaves it open. *)
Variable set_iter : list string -> list string.
Variable lrr : LRRClient.
Variable db : Database.

(** Lines 95-105: the loop over the rows of [pixiv_image_to_tag]. *)
Definition for_i2t_rows (i2t_rows : list string) (tag_list : list string) : list string :=
  fold_left
    (fun tag_list tag_id =>
       let tag_list := tag_list ++ [sanitize_tag tag_id] in
       match fetchone (select_en_translation db tag_id) with
       | Some en_translation => tag_list ++ [sanitize_tag en_translation]
       | None => tag_list
       end)
    i2t_rows tag_list.

(** Lines 123-149: the [while True] loop.  Each turn makes one update
    call; [fuel] bounds the turns and [retry_loop_total] shows that the
    bound chosen by [update_archive_metadata] is never reached. *)
Fixpoint retry_loop (fuel : nat) (arcid title tags summary : string)
    (retry_count : Z) : M unit :=
  match fuel with
  | O => out_of_fuel
  | S fuel =>
      do reply <- remote (UpdateArchiveMetadata arcid title tags summary)
                    (fun n => update_archive_metadata_api lrr n arcid title tags summary);
      match reply with
      | Replied (Some err) =>
          if status err =? 423 then
            if retry_count >? max_retries then
              raise (Exception ("Persistent lock problem encountered while updating archive "
                                  +:+ arcid +:+ ": " +:+ error err))
            else
              let tts := 2 ^ (retry_count + 1) in
              do _ <- sleep tts;
              retry_loop fuel arcid title tags summary (retry_count + 1)
          else
            raise (Exception ("Failed to update archive metadata: " +:+ error err))
      | Replied None => ret tt
      | Raised e =>
          if transient_network e then
            if retry_count >? max_retries then raise e
            else
              let tts := 2 ^ (retry_count + 1) in
              do _ <- sleep tts;
              retry_loop fuel arcid title tags summary (retry_count + 1)
          else raise e
      end
  end.

Definition update_archive_metadata (arcid : string) : M TaskResult :=
  do r <- remote (GetArchiveMetadata arcid) (fun n => get_archive_metadata lrr n arcid);
  match r with
  | inl err => raise (Exception ("Failed to get archive metadata: " +:+ error err))
  | inr response =>
      let tags := tags response in
      let filename := filename response in
      do pixiv_id <- lift (parse_pixiv_id filename);
      (* the parameter of the query of line 67 *)
      do _ <- lift (bind_parameter pixiv_id);
      match fetchone (select_master_image db pixiv_id) with
      | None => ret PIXIVUTIL_NO_METADATA
      | Some (image_id, member_id, title, caption) =>
          let summary := caption in
          let tag_list := Py.strip <$> Py.split "," tags in
          let tag_list :=
            tag_list ++ ["source:https://pixiv.net/artworks/" +:+ Py.str image_id] in
          let tag_list := tag_list ++ ["pixiv_user_id:" +:+ Py.str member_id] in
          match fetchone (select_member_name db member_id) with
          | None =>
              raise (Exception ("Pixiv artwork has no member: arcid=" +:+ arcid
                                  +:+ ", pixiv_id=" +:+ Py.str pixiv_id))
          | Some member_name =>
              let tag_list := tag_list ++ ["artist:" +:+ sanitize_tag member_name] in
              let tag_list := for_i2t_rows (select_tag_ids db pixiv_id) tag_list in
              let tag_list :=
                match fetchone (select_date_info db pixiv_id) with
                | Some (created_date_epoch, uploaded_date_epoch) =>
                    (tag_list ++ ["date_created:" +:+ Py.str created_date_epoch])
                      ++ ["date_uploaded:" +:+ Py.str uploaded_date_epoch]
                | None => tag_list
                end in
              let tags := Py.join "," (set_iter tag_list) in
              let retry_count := 0 in
              do _ <- retry_loop (Z.to_nat (max_retries + 2 - retry_count))
                        arcid title tags summary retry_count;
              ret SUCCESS
          end
      end
  end.

(** ** [update_lrr_metadata], lines 153-191 *)

Definition required_tables : list string :=
  [ "pixiv_master_image"; "pixiv_manga_image"; "pixiv_date_info";
    "pixiv_image_to_tag"; "pixiv_master_member"; "pixiv_master_tag";
    "pixiv_tag_translation" ].

(** Lines 172-176. *)
Fixpoint for_required_tables (tables : list string) : M unit :=
  match tables with
  | [] => ret tt
  | tb_name :: tables =>
      match fetchone (select_table db tb_name) with
      | None => raise (Exception ("Required table does not exist: " +:+ tb_name))
      | Some _ => for_required_tables tables
      end
  end.

(** Lines 187-189: the bucket of [key] is created on first use, then
    [arcid] is appended to it. *)
Definition record_result (key arcid : string)
    (result_mapping : gmap string (list string)) : gmap string (list string) :=
  let result_mapping :=
    match result_mapping !! key with
    | None => <[key := []]> result_mapping
    | Some _ => result_mapping
    end in
  alter (fun bucket => bucket ++ [arcid]) key result_mapping.

(** Lines 185-190. *)
Fixpoint for_arcids (arcids : list string)
    (result_mapping : gmap string (list string)) : M (gmap string (list string)) :=
  match arcids with
  | [] => ret result_mapping
  | arcid :: arcids =>
      do result <- update_archive_metadata arcid;
      for_arcids arcids (record_result (value result) arcid result_mapping)
  end.

Definition update_lrr_metadata : M (gmap string (list string)) :=
  let result_mapping : gmap string (list string) := ∅ in
  do err <- remote GetShinobuStatus (get_shinobu_status lrr);
  match err with
  | Some err => raise (Exception ("Failed to confirm API key validity: " +:+ error err))
  | None =>
      do _ <- for_required_tables required_tables;
      do response <- remote GetUntaggedArchives (get_untagged_archives lrr);
      match response with
      | inl err => raise (Exception ("Failed to get untagged archives: " +:+ error err))
      | inr arcids => for_arcids arcids result_mapping
      end
  end.

End Pipeline.

(** ** The end-to-end scenario of the specification

    One image 12345 by member 7, one tag, one date row; one archive
    [abc123] on the server. *)

Definition scenario_db : Database := {|
  sqlite_master :=
    (fun n => ("table", n)) <$>
      [ "pixiv_master_image"; "pixiv_manga_image"; "pixiv_date_info";
        "pixiv_image_to_tag"; "pixiv_master_member"; "pixiv_master_tag";
        "pixiv_tag_translation" ];
  pixiv_master_image := [(12345, 7, "T", "C")];
  pixiv_master_member := [(7, "Foo_Bar")];
  pixiv_image_to_tag := [(12345, "scenery")];
  pixiv_tag_translation := [];
  pixiv_date_info := [(12345, 1000, 2000)]
|}.

(** A server with the one archive under [fname], whose update call
    answers with [replies] in turn and with success afterwards. *)
Definition scripted_lrr (fname tgs : string) (first_update : nat)
    (replies : list UpdateReply) : LRRClient := {|
  get_shinobu_status := fun _ => None;
  get_untagged_archives := fun _ => inr ["abc123"];
  get_archive_metadata := fun _ _ => inr {| filename := fname; tags := tgs |};
  update_archive_metadata_api := fun n _ _ _ _ =>
    default (Replied None) (replies !! (n - first_update)%nat)
|}.

Definition locked : UpdateReply := Replied (Some {| status := 423; error := "locked" |}).

(** One iteration order, for the examples: the elements without their
    repetitions. *)
Definition first_seen (l : list string) : list string := remove_dups l.

(** ** Reading a trace and a reply *)

(** The reply is the transient lock: an error with status 423. *)
Definition is_locked (r : UpdateReply) : bool :=
  match r with
  | Replied (Some err) => status err =? 423
  | _ => false
  end.

Definition is_update (e : Event) : bool :=
  match e with Call (UpdateArchiveMetadata _ _ _ _) => true | _ => false end.

(** The number of update calls in a trace, and its sleeps in order. *)
Definition attempts (t : list Event) : nat := length (List.filter is_update t).

Definition sleeps (t : list Event) : list Z :=
  omap (fun e => match e with Sleep tts => Some tts | _ => None end) t.

(** What Python promises of the iteration over [set(l)]: every element
    of [l], each once. *)
Definition iterates_set (set_iter : list string -> list string) : Prop :=
  forall l, NoDup (set_iter l) /\ forall x, x ∈ set_iter l <-> x ∈ l.

(** Variations of the scenario. *)
Definition scenario_db_no_member : Database := {|
  sqlite_master := sqlite_master scenario_db;
  pixiv_master_image := pixiv_master_image scenario_db;
  pixiv_master_member := [];
  pixiv_image_to_tag := pixiv_image_to_tag scenario_db;
  pixiv_tag_translation := pixiv_tag_translation scenario_db;
  pixiv_date_info := pixiv_date_info scenario_db
|}.

Definition scenario_db_no_tag_table : Database := {|
  sqlite_master := filter (fun r : string * string => r.2 <> "pixiv_master_tag")
                     (sqlite_master scenario_db);
  pixiv_master_image := pixiv_master_image scenario_db;
  pixiv_master_member := pixiv_master_member scenario_db;
  pixiv_image_to_tag := pixiv_image_to_tag scenario_db;
  pixiv_tag_translation := pixiv_tag_translation scenario_db;
  pixiv_date_info := pixiv_date_info scenario_db
|}.

(** A server that refuses the API key. *)
Definition refusing_lrr : LRRClient := {|
  get_shinobu_status := fun _ => Some {| status := 401; error := "unauthorized" |};
  get_untagged_archives := fun _ => inr ["abc123"];
  get_archive_metadata := fun _ _ => inr {| filename := "pixiv_12345"; tags := "" |};
  update_archive_metadata_api := fun _ _ _ _ _ => Replied None
|}.

(** ** More to read from replies, traces and result mappings *)

(** The reply is one the loop retries: the lock, or one of the network
    exceptions of the [except] clause. *)
Definition is_transient (r : UpdateReply) : bool :=
  match r with
  | Replied (Some err) => status err =? 423
  | Replied None => false
  | Raised e => transient_network e
  end.

(** [k] failed turns of the loop, the first at retry count [from]: each
    is the update call and the sleep that follows it. *)
Definition backoff_steps (update : Event) (from k : nat) : list Event :=
  flat_map (fun i => [update; Sleep (2 ^ (Z.of_nat i + 1))]) (seq from k).

(** The events of a loop that fails [k] times and then ends. *)
Definition schedule (update : Event) (k : nat) : list Event :=
  backoff_steps update 0 k ++ [update].

(** The archives whose metadata a trace reads, and the archives it
    sends an update for, in order. *)
Definition reads (t : list Event) : list string :=
  omap (fun e => match e with Call (GetArchiveMetadata arcid) => Some arcid | _ => None end) t.

Definition writes (t : list Event) : list string :=
  omap (fun e => match e with
                 | Call (UpdateArchiveMetadata arcid _ _ _) => Some arcid
                 | _ => None
                 end) t.

(** The bucket of a result mapping under a key, empty when absent. *)
Definition bucket (m : gmap string (list string)) (key : string) : list string :=
  default [] (m !! key).

(** A server with two untagged archives: [a1] is image 12345 of the
    scenario, [a2] is an image the database does not know. *)
Definition two_archive_lrr : LRRClient := {|
  get_shinobu_status := fun _ => None;
  get_untagged_archives := fun _ => inr ["a1"; "a2"];
  get_archive_metadata := fun _ arcid =>
    inr {| filename := if decide (arcid = "a1") then "pixiv_12345" else "pixiv_999";
           tags := "" |};
  update_archive_metadata_api := fun _ _ _ _ _ => Replied None
|}.

(** A server that accepts the API key and then fails every other read. *)
Definition failing_reads_lrr : LRRClient := {|
  get_shinobu_status := fun _ => None;
  get_untagged_archives := fun _ => inl {| status := 500; error := "listing failed" |};
  get_archive_metadata := fun _ _ => inl {| status := 404; error := "no such archive" |};
  update_archive_metadata_api := fun _ _ _ _ _ => Replied None
|}.

(** A server without untagged archives. *)
Definition idle_lrr : LRRClient := {|
  get_shinobu_status := fun _ => None;
  get_untagged_archives := fun _ => inr [];
  get_archive_metadata := fun _ _ => inl {| status := 404; error := "no such archive" |};
  update_archive_metadata_api := fun _ _ _ _ _ => Replied None
|}.

Definition timed_out : UpdateReply := Raised TimeoutError.

(** Two exceptions the [except] clause does not name: [KeyError], which
    it does not catch, and aiohttp's [ServerTimeoutError], which
    inherits from two of the classes it names. *)
Definition key_error : PyExn :=
  OtherError "KeyError" ["LookupError"; "Exception"; "BaseException"].

Definition server_timeout_error : PyExn :=
  OtherError "ServerTimeoutError"
    ["ServerConnectionError"; "ClientConnectionError"; "ClientError";
     "TimeoutError"; "OSError"; "Exception"; "BaseException"].

(** What the scenario pushes for an archive without tags, and the events
    and the mapping of the run over the two archives. *)
Definition scenario_pushed : string :=
  ",source:https://pixiv.net/artworks/12345,pixiv_user_id:7,artist:Foo Bar,scenery,date_created:1000,date_uploaded:2000".

Definition two_archive_events : list Event :=
  [ Call (GetArchiveMetadata "a1");
    Call (UpdateArchiveMetadata "a1" "T" scenario_pushed "C");
    Call (GetArchiveMetadata "a2") ].

Definition two_archive_result : gmap string (list string) :=
  {[ "SUCCESS" := ["a1"]; "PIXIVUTIL_NO_METADATA" := ["a2"] ]}.

(* ===================================================================== *)
(** * Part II: properties                                                 *)
(* ===================================================================== *)

(** ** The string primitives *)

Module PyFacts.
Import Py.

Lemma str_app_nil_l (s : string) : "" +:+ s = s.
Proof. reflexivity. Qed.

Lemma str_app_cons (c : ascii) (a b : string) : String c a +:+ b = String c (a +:+ b).
Proof. reflexivity. Qed.

Lemma str_app_nil_r (s : string) : s +:+ "" = s.
Proof. induction s as [|c s IH]; [reflexivity|]. by rewrite str_app_cons, IH. Qed.

Lemma str_app_assoc (a b c : string) : a +:+ b +:+ c = (a +:+ b) +:+ c.
Proof. induction a as [|x a IH]; [reflexivity|]. by rewrite !str_app_cons, IH. Qed.

Lemma str_length_app (a b : string) :
String.length (a +:+ b) = (String.length a + String.length b)%nat.
Proof. induction a as [|x a IH]; [reflexivity|]. rewrite str_app_cons. simpl. by rewrite IH. Qed.

Lemma str_drop_app (a b : string) : drop (String.length a) (a +:+ b) = b.
Proof. induction a as [|x a IH]; [reflexivity|]. by rewrite str_app_cons. Qed.

Lemma str_length_drop (n : nat) (s : string) :
String.length (drop n s) = (String.length s - n)%nat.
Proof. revert s. induction n as [|n IH]; intros [|c s]; simpl; auto. Qed.

Lemma prefix_app (a b : string) : String.prefix a (a +:+ b) = true.
Proof.
induction a as [|x a IH]; [by destruct b|].
rewrite str_app_cons. simpl. by destruct (ascii_dec x x).
Qed.

Lemma prefix_true (a s : string) :
String.prefix a s = true -> s = a +:+ drop (String.length a) s.
Proof.
revert a. induction s as [|c s IH]; intros [|x a] H; simpl in *; try done.
destruct (ascii_dec x c) as [->|]; [|done].
rewrite str_app_cons. f_equal. by apply IH.
Qed.

Lemma prefix_nil_r (a : string) : a <> "" -> String.prefix a "" = false.
Proof. by destruct a. Qed.

(** Only the first [length a] characters of a string decide whether [a]
  is a prefix of it. *)
Lemma prefix_app_long (a u v : string) :
(String.length a <= String.length u)%nat ->
String.prefix a (u +:+ v) = String.prefix a u.
Proof.
revert a. induction u as [|c u IH]; intros [|x a] H; simpl in *; try done; try lia.
- by destruct v.
- destruct (ascii_dec x c); [|done]. apply IH. lia.
Qed.

Lemma partition_eq (sep s : string) :
partition sep s =
if String.prefix sep s then Some ("", drop (String.length sep) s)
else match s with
     | "" => None
     | String c s' =>
         match partition sep s' with
         | Some (a, b) => Some (String c a, b)
         | None => None
         end
     end.
Proof. by destruct s. Qed.

Lemma partition_Some (sep s a b : string) :
partition sep s = Some (a, b) -> s = a +:+ sep +:+ b.
Proof.
revert a. induction s as [|c s IH]; intros a; rewrite partition_eq;
  destruct (String.prefix sep _) eqn:E.
- intros [= <- <-]. by apply prefix_true in E.
- done.
- intros [= <- <-]. by apply prefix_true in E.
- destruct (partition sep s) as [[a' b']|]; [|done].
  intros [= <- <-]. rewrite str_app_cons. f_equal. by apply IH.
Qed.

Lemma partition_length (sep s a b : string) :
partition sep s = Some (a, b) ->
String.length s = (String.length a + String.length sep + String.length b)%nat.
Proof. intros ->%partition_Some. rewrite !str_length_app. lia. Qed.

Lemma partition_None (sep s : string) :
partition sep s = None -> forall a b, s <> a +:+ sep +:+ b.
Proof.
induction s as [|c s IH]; rewrite partition_eq;
  destruct (String.prefix sep _) eqn:E; try done; intros P a b H.
- destruct a; [|done]. rewrite str_app_nil_l in H. by rewrite H, prefix_app in E.
- destruct (partition sep s) as [[a' b']|] eqn:P'; [done|].
  destruct a as [|x a].
  + rewrite str_app_nil_l in H. by rewrite H, prefix_app in E.
  + rewrite str_app_cons in H. injection H as -> H. by eapply IH.
Qed.

Lemma partition_nil (sep : string) : sep <> "" -> partition sep "" = None.
Proof. intros H. rewrite partition_eq. by rewrite prefix_nil_r. Qed.

(** ** [split] and [replace] do not depend on their fuel *)

Lemma split_fuel_enough (sep : string) (n m : nat) (s : string) :
sep <> "" -> (String.length s <= n)%nat -> (String.length s <= m)%nat ->
split_fuel n sep s = split_fuel m sep s.
Proof.
intros Hsep. revert m s. induction n as [|n IH]; intros m s Hn Hm.
- destruct s; [|simpl in Hn; lia]. destruct m; [done|].
  cbn [split_fuel]. by rewrite partition_nil.
- destruct m as [|m].
  + destruct s; [|simpl in Hm; lia]. cbn [split_fuel]; by rewrite partition_nil.
  + cbn [split_fuel]. destruct (partition sep s) as [[a b]|] eqn:P; [|done].
    f_equal. apply partition_length in P.
    assert (0 < String.length sep)%nat by (destruct sep; [done|simpl; lia]).
    apply IH; lia.
Qed.

Lemma split_unfold (sep s : string) :
sep <> "" ->
split sep s =
match partition sep s with
| None => [s]
| Some (a, b) => a :: split sep b
end.
Proof.
intros Hsep. unfold split. destruct s as [|c s].
- cbn [String.length split_fuel]. by rewrite partition_nil.
- cbn [String.length split_fuel].
  destruct (partition sep (String c s)) as [[a b]|] eqn:P; [|done].
  f_equal. apply partition_length in P. simpl in P. 
  assert (0 < String.length sep)%nat by (destruct sep; [done|simpl; lia]).
  apply split_fuel_enough; [done|lia..].
Qed.

Lemma replace_fuel_enough (old new : string) (n m : nat) (s : string) :
old <> "" -> (String.length s <= n)%nat -> (String.length s <= m)%nat ->
replace_fuel n old new s = replace_fuel m old new s.
Proof.
intros Hold. revert m s. induction n as [|n IH]; intros m s Hn Hm.
- destruct s; [|simpl in Hn; lia]. destruct m; [done|].
  cbn [replace_fuel]. by rewrite partition_nil.
- destruct m as [|m].
  + destruct s; [|simpl in Hm; lia]. cbn [replace_fuel]; by rewrite partition_nil.
  + cbn [replace_fuel]. destruct (partition old s) as [[a b]|] eqn:P; [|done].
    do 2 f_equal. apply partition_length in P.
    assert (0 < String.length old)%nat by (destruct old; [done|simpl; lia]).
    apply IH; lia.
Qed.

Lemma replace_unfold (old new s : string) :
old <> "" ->
replace old new s =
match partition old s with
| None => s
| Some (a, b) => a +:+ new +:+ replace old new b
end.
Proof.
intros Hold. unfold replace. destruct s as [|c s].
- cbn [String.length replace_fuel]. by rewrite partition_nil.
- cbn [String.length replace_fuel].
  destruct (partition old (String c s)) as [[a b]|] eqn:P; [|done].
  do 2 f_equal. apply partition_length in P. simpl in P.
  assert (0 < String.length old)%nat by (destruct old; [done|simpl; lia]).
  apply replace_fuel_enough; [done|lia..].
Qed.

(** [replace] as a left-to-right scan. *)
Lemma replace_nil (old new : string) : old <> "" -> replace old new "" = "".
Proof. intros H. rewrite replace_unfold by done. by rewrite partition_nil. Qed.

Lemma replace_at (old new s : string) :
old <> "" -> String.prefix old s = true ->
replace old new s = new +:+ replace old new (drop (String.length old) s).
Proof.
intros H E. rewrite replace_unfold by done. by rewrite partition_eq, E.
Qed.

Lemma replace_skip (old new : string) (c : ascii) (s : string) :
old <> "" -> String.prefix old (String c s) = false ->
replace old new (String c s) = String c (replace old new s).
Proof.
intros H E. rewrite (replace_unfold _ _ (String c s)), (replace_unfold _ _ s) by done.
rewrite (partition_eq _ (String c s)), E.
by destruct (partition old s) as [[a b]|].
Qed.

(** Induction along the scan of [replace] and [split]. *)
Lemma scan_ind (old : string) (Hold : old <> "") (P : string -> Prop) :
P "" ->
(forall s, String.prefix old s = true -> P (drop (String.length old) s) -> P s) ->
(forall c s, String.prefix old (String c s) = false -> P s -> P (String c s)) ->
forall s, P s.
Proof.
intros Hnil Hat Hskip s.
remember (String.length s) as n eqn:Hn. revert s Hn.
induction n as [n IH] using lt_wf_ind. intros s ->.
destruct (String.prefix old s) eqn:E.
- apply Hat; [done|]. eapply IH; [|done].
  rewrite str_length_drop. destruct old; [done|].
  destruct s; [done|]. simpl. lia.
- destruct s as [|c s]; [done|]. apply Hskip; [done|].
  eapply IH; [|done]. simpl. lia.
Qed.

Lemma str_forallb_app (p : ascii -> bool) (a b : string) :
forallb p (a +:+ b) = forallb p a && forallb p b.
Proof.
induction a as [|x a IH]; [done|]. rewrite str_app_cons. simpl.
by rewrite IH, andb_assoc.
Qed.

Lemma str_forallb_drop (p : ascii -> bool) (n : nat) (s : string) :
forallb p s = true -> forallb p (drop n s) = true.
Proof.
revert s. induction n as [|n IH]; intros [|c s]; simpl; try done.
intros [_ H]%andb_prop. by apply IH.
Qed.

Lemma forallb_replace (p : ascii -> bool) (old new s : string) :
old <> "" -> forallb p new = true -> forallb p s = true ->
forallb p (replace old new s) = true.
Proof.
intros Hold Hnew. induction s as [|s E IH|c s E IH] using (scan_ind old Hold).
- by rewrite replace_nil.
- intros H. rewrite replace_at, str_forallb_app, Hnew by done.
  apply IH. by apply str_forallb_drop.
- intros [Hc H]%andb_prop. rewrite replace_skip by done. simpl.
  by rewrite Hc, IH.
Qed.

Lemma length_replace (old new s : string) :
old <> "" -> (String.length new <= String.length old)%nat ->
(String.length (replace old new s) <= String.length s)%nat.
Proof.
intros Hold Hlen. induction s as [|s E IH|c s E IH] using (scan_ind old Hold).
- by rewrite replace_nil.
- rewrite replace_at, str_length_app by done. rewrite str_length_drop in IH.
  apply prefix_true in E. rewrite E at 2. rewrite str_length_app, str_length_drop. lia.
- rewrite replace_skip by done. simpl. lia.
Qed.

Lemma replace_absent (old new s : string) :
old <> "" -> contains old s = false -> replace old new s = s.
Proof.
intros Hold H. rewrite replace_unfold by done. unfold contains in H.
by destruct (partition old s) as [[a b]|].
Qed.

(** A replacement that shortens leaves exactly the strings without an
  occurrence unchanged. *)
Lemma replace_fixed_iff (old new s : string) :
old <> "" -> (String.length new < String.length old)%nat ->
replace old new s = s <-> contains old s = false.
Proof.
intros Hold Hlen. split; [|by apply replace_absent].
intros H. unfold contains. destruct (partition old s) as [[a b]|] eqn:P; [|done].
exfalso. rewrite replace_unfold, P in H by done.
apply partition_length in P. apply (f_equal String.length) in H.
rewrite !str_length_app in H.
pose proof (length_replace old new b Hold). lia.
Qed.

Lemma contains_true_iff (sub s : string) :
contains sub s = true <-> exists a b, s = a +:+ sub +:+ b.
Proof.
unfold contains. destruct (partition sub s) as [[a b]|] eqn:P.
- split; [|done]. intros _. exists a, b. by apply partition_Some.
- split; [done|]. intros (a & b & H). by apply partition_None with (a:=a) (b:=b) in P.
Qed.

Lemma re_sub_class_gone (class : ascii -> bool) (s : string) :
forallb (fun c => negb (class c)) (re_sub_class class s) = true.
Proof.
induction s as [|c s IH]; [done|]. simpl.
destruct (class c) eqn:E; [done|]. simpl. by rewrite E.
Qed.

Lemma re_sub_class_id (class : ascii -> bool) (s : string) :
forallb (fun c => negb (class c)) s = true -> re_sub_class class s = s.
Proof.
induction s as [|c s IH]; [done|]. simpl. intros [Hc H]%andb_prop.
apply negb_true_iff in Hc. rewrite Hc. by rewrite IH.
Qed.

Lemma prefix_char (c x : ascii) (s : string) :
String.prefix (String c "") (String x s) = bool_decide (c = x).
Proof.
simpl. destruct (ascii_dec c x) as [->|Hne].
- rewrite bool_decide_eq_true_2 by done. by destruct s.
- by rewrite bool_decide_eq_false_2.
Qed.

Lemma replace_char_gone (c d : ascii) (s : string) :
c <> d ->
forallb (fun x => negb (bool_decide (c = x))) (replace (String c "") (String d "") s) = true.
Proof.
intros Hcd. induction s as [|x s IH]; [by rewrite replace_nil|].
destruct (decide (c = x)) as [<-|Hne].
- rewrite replace_at by (done || by rewrite prefix_char, bool_decide_eq_true_2).
  cbn [String.length drop]. rewrite str_app_cons, str_app_nil_l. simpl.
  by rewrite IH, bool_decide_eq_false_2.
- rewrite replace_skip by (done || by rewrite prefix_char, bool_decide_eq_false_2).
  simpl. by rewrite IH, bool_decide_eq_false_2.
Qed.

Lemma contains_char_false (c : ascii) (s : string) :
forallb (fun x => negb (bool_decide (c = x))) s = true ->
contains (String c "") s = false.
Proof.
unfold contains. induction s as [|x s IH]; [done|].
simpl forallb. intros [Hx H]%andb_prop. apply negb_true_iff in Hx.
rewrite partition_eq, prefix_char, Hx.
specialize (IH H). by destruct (partition (String c "") s) as [[a b]|].
Qed.

(** ** [split] as a scan *)

Lemma split_absent (sep s : string) :
sep <> "" -> contains sep s = false -> split sep s = [s].
Proof.
intros Hsep H. rewrite split_unfold by done. unfold contains in H.
by destruct (partition sep s) as [[a b]|].
Qed.

Lemma split_at (sep s : string) :
sep <> "" -> String.prefix sep s = true ->
split sep s = "" :: split sep (drop (String.length sep) s).
Proof. intros H E. rewrite split_unfold by done. by rewrite partition_eq, E. Qed.

Lemma split_skip (sep : string) (c : ascii) (s : string) :
sep <> "" -> String.prefix sep (String c s) = false ->
split sep (String c s) = String c (hd "" (split sep s)) :: tail (split sep s).
Proof.
intros H E. rewrite (split_unfold _ (String c s)), (split_unfold _ s) by done.
rewrite (partition_eq _ (String c s)), E.
by destruct (partition sep s) as [[a b]|].
Qed.

(** The first occurrence of [init ++ last] in [pre ++ init ++ last ++ rest]
  is the one after [pre] when none starts inside [pre]. *)
Lemma partition_first (init : string) (last : ascii) (pre rest : string) :
contains (init +:+ String last "") (pre +:+ init) = false ->
partition (init +:+ String last "") (pre +:+ (init +:+ String last "") +:+ rest)
= Some (pre, rest).
Proof.
set (sep := init +:+ String last "").
induction pre as [|c pre IH]; intros H.
- rewrite str_app_nil_l, partition_eq, prefix_app. by rewrite str_drop_app.
- unfold contains in H. rewrite partition_eq in H.
  destruct (String.prefix sep (String c pre +:+ init)) eqn:E; [done|].
  rewrite str_app_cons in H.
  destruct (partition sep (pre +:+ init)) as [[a b]|] eqn:P; [done|].
  rewrite partition_eq.
  assert (String.prefix sep (String c pre +:+ sep +:+ rest) = false) as ->.
  { rewrite <- E. unfold sep at 2. rewrite <- (str_app_assoc init), (str_app_assoc _ init).
    apply prefix_app_long. unfold sep. rewrite !str_length_app. simpl. lia. }
  rewrite str_app_cons, IH; [done|]. unfold contains. by rewrite P.
Qed.

Lemma split_first (init : string) (last : ascii) (pre rest : string) :
contains (init +:+ String last "") (pre +:+ init) = false ->
split (init +:+ String last "") (pre +:+ (init +:+ String last "") +:+ rest)
= pre :: split (init +:+ String last "") rest.
Proof.
intros H. rewrite split_unfold by (by destruct init).
by rewrite partition_first.
Qed.

(** A string whose characters all satisfy [p] contains no string with a
  character that does not. *)
Lemma contains_forallb (p : ascii -> bool) (sub s : string) :
forallb p s = true -> forallb p sub = false -> contains sub s = false.
Proof.
intros Hs Hsub. destruct (contains sub s) eqn:E; [|done].
apply contains_true_iff in E as (a & b & ->).
rewrite !str_forallb_app, Hsub in Hs. by destruct (forallb p a).
Qed.

Lemma tail_elem_of {A} (y : A) (l : list A) : y ∈ tail l -> y ∈ l.
Proof. destruct l; [done|]. simpl. by right. Qed.

(** With a one-character separator the pieces of [b] are pieces of
  [a ++ sep ++ b], after the first. *)
Lemma split_char_later (c : ascii) (y a b : string) :
y ∈ split (String c "") b ->
y ∈ tail (split (String c "") (a +:+ String c "" +:+ b)).
Proof.
intros H. induction a as [|x a IH].
- rewrite str_app_nil_l, str_app_cons, str_app_nil_l.
  rewrite split_at by (done || by rewrite prefix_char, bool_decide_eq_true_2).
  done.
- rewrite str_app_cons. destruct (decide (c = x)) as [<-|Hne].
  + rewrite split_at by (done || by rewrite prefix_char, bool_decide_eq_true_2).
    cbn [tail String.length drop]. by apply tail_elem_of.
  + rewrite split_skip by (done || by rewrite prefix_char, bool_decide_eq_false_2).
    done.
Qed.

Lemma join_cons (sep x y : string) (l : list string) :
join sep (x :: y :: l) = x +:+ sep +:+ join sep (y :: l).
Proof. reflexivity. Qed.

(** An empty entry of a list shows as an empty piece of the joined text. *)
Lemma split_join_empty (c : ascii) (l : list string) :
"" ∈ l -> "" ∈ split (String c "") (join (String c "") l).
Proof.
induction l as [|x l IH]; [by intros ?%elem_of_nil|].
destruct l as [|y l].
- intros Hx%list_elem_of_singleton. subst x. by left.
- rewrite join_cons. intros [Hx|H]%elem_of_cons; [subst x|].
  + rewrite str_app_nil_l, str_app_cons, str_app_nil_l.
    rewrite split_at by (done || by rewrite prefix_char, bool_decide_eq_true_2).
    by left.
  + by apply tail_elem_of, split_char_later, IH.
Qed.

Lemma split_not_nil (sep s : string) : sep <> "" -> split sep s <> [].
Proof.
  intros Hsep. rewrite split_unfold by done.
  by destruct (partition sep s) as [[a b]|].
Qed.

Lemma split_char_app (c : ascii) (a b : string) :
  split (String c "") (a +:+ String c "" +:+ b)
  = split (String c "") a ++ split (String c "") b.
Proof.
  induction a as [|x a IH].
  - rewrite str_app_nil_l, str_app_cons, str_app_nil_l.
    rewrite split_at by (done || by rewrite prefix_char, bool_decide_eq_true_2).
    done.
  - rewrite str_app_cons. destruct (decide (c = x)) as [<-|Hne].
    + rewrite (split_at _ (String c (a +:+ String c "" +:+ b)))
        by (done || by rewrite prefix_char, bool_decide_eq_true_2).
      rewrite (split_at _ (String c a))
        by (done || by rewrite prefix_char, bool_decide_eq_true_2).
      cbn [String.length drop]. by rewrite IH.
    + rewrite (split_skip _ x (a +:+ String c "" +:+ b))
        by (done || by rewrite prefix_char, bool_decide_eq_false_2).
      rewrite (split_skip _ x a)
        by (done || by rewrite prefix_char, bool_decide_eq_false_2).
      rewrite IH. pose proof (split_not_nil (String c "") a) as Hnil.
      destruct (split (String c "") a); [by destruct Hnil|done].
Qed.

(** The pieces of the joined text are the pieces of the entries. *)
Lemma split_join_char (c : ascii) (l : list string) :
  l <> [] ->
  split (String c "") (join (String c "") l) = l ≫= split (String c "").
Proof.
  induction l as [|x l IH]; [done|]. intros _. destruct l as [|y l].
  - simpl. by rewrite app_nil_r.
  - rewrite join_cons, split_char_app, IH by done. done.
Qed.

(** The joined text of two non-empty lists. *)
Lemma join_app (sep : string) (l1 l2 : list string) :
l1 <> [] -> l2 <> [] ->
join sep (l1 ++ l2) = join sep l1 +:+ sep +:+ join sep l2.
Proof.
induction l1 as [|x l1 IH]; [done|]. intros _ H2. destruct l1 as [|y l1].
- destruct l2 as [|z l2]; [done|]. reflexivity.
- change ((x :: y :: l1) ++ l2) with (x :: y :: (l1 ++ l2)).
  rewrite !join_cons. change (y :: l1 ++ l2) with ((y :: l1) ++ l2).
  rewrite IH by done. by rewrite <- !str_app_assoc.
Qed.

(** An empty entry among others leaves its mark on the joined text: a
  comma in front, a comma at the end, or two commas side by side. *)
Lemma join_empty_entry (l : list string) :
"" ∈ l -> (exists y, y ∈ l /\ y <> "") ->
(exists rest, join "," l = "," +:+ rest)
\/ (exists a b, join "," l = a +:+ ",," +:+ b)
\/ (exists init, join "," l = init +:+ ",").
Proof.
intros (l1 & l2 & ->)%list_elem_of_split (y & Hy & Hne).
destruct l1 as [|x1 l1]; [|destruct l2 as [|x2 l2]].
- left. destruct l2 as [|x2 l2].
  + apply list_elem_of_singleton in Hy. done.
  + exists (join "," (x2 :: l2)). reflexivity.
- right; right. exists (join "," (x1 :: l1)).
  rewrite join_app by done. reflexivity.
- right; left. exists (join "," (x1 :: l1)), (join "," (x2 :: l2)).
  rewrite join_app by done. rewrite join_cons. reflexivity.
Qed.

(** ** [strip] *)

Lemma rev_app_rev_app (a b c : string) :
String.rev_app (String.rev_app a b) c = String.rev_app b (a +:+ c).
Proof.
revert b c. induction a as [|x a IH]; intros b c; [done|].
simpl. by rewrite IH.
Qed.

Lemma str_rev_involutive (s : string) : String.rev (String.rev s) = s.
Proof. unfold String.rev. rewrite rev_app_rev_app. simpl. apply str_app_nil_r. Qed.

Lemma str_forallb_rev_app (p : ascii -> bool) (a b : string) :
forallb p (String.rev_app a b) = forallb p a && forallb p b.
Proof.
revert b. induction a as [|x a IH]; intros b; [done|].
simpl. rewrite IH. simpl. by destruct (p x), (forallb p a).
Qed.

Lemma str_forallb_rev (p : ascii -> bool) (s : string) :
forallb p (String.rev s) = forallb p s.
Proof. unfold String.rev. rewrite str_forallb_rev_app. simpl. apply andb_true_r. Qed.

Lemma lstrip_id (s : string) :
forallb (fun c => negb (isspace c)) s = true -> lstrip s = s.
Proof.
destruct s as [|c s]; [done|]. simpl. intros [Hc _]%andb_prop.
apply negb_true_iff in Hc. by rewrite Hc.
Qed.

Lemma strip_id (s : string) :
forallb (fun c => negb (isspace c)) s = true -> strip s = s.
Proof.
intros H. unfold strip, rstrip. rewrite (lstrip_id s) by done.
rewrite lstrip_id by (by rewrite str_forallb_rev). apply str_rev_involutive.
Qed.

(** Stripping only removes blanks. *)
Lemma forallb_lstrip (p : ascii -> bool) (s : string) :
(forall c, isspace c = true -> p c = true) ->
forallb p (lstrip s) = forallb p s.
Proof.
intros Hp. induction s as [|c s IH]; [done|]. simpl.
destruct (isspace c) eqn:E; [|done]. by rewrite IH, (Hp c E).
Qed.

Lemma forallb_strip (p : ascii -> bool) (s : string) :
(forall c, isspace c = true -> p c = true) ->
forallb p (strip s) = forallb p s.
Proof.
intros Hp. unfold strip, rstrip.
by rewrite str_forallb_rev, !forallb_lstrip, str_forallb_rev, forallb_lstrip.
Qed.

Lemma str_forallb_impl (p q : ascii -> bool) (s : string) :
(forall c, p c = true -> q c = true) ->
forallb p s = true -> forallb q s = true.
Proof.
intros Hpq. induction s as [|c s IH]; [done|]. simpl.
intros [Hc H]%andb_prop. by rewrite (Hpq c Hc), IH.
Qed.

End PyFacts.

(** ** [sanitize_tag] *)

Section SanitizeFacts.
Import Py PyFacts.

Example sanitize_reserved : sanitize_tag "a?c*d%e$f:g" = "acdefg".
Proof. reflexivity. Qed.

Example sanitize_underscore_hyphen : sanitize_tag "foo_bar -baz" = "foo bar baz".
Proof. reflexivity. Qed.

Example sanitize_hyphen_kept : sanitize_tag "foo-bar" = "foo-bar".
Proof. reflexivity. Qed.

Lemma sanitize_tag_no_reserved (s : string) :
forallb (fun c => negb (reserved c)) (sanitize_tag s) = true.
Proof.
unfold sanitize_tag. apply forallb_replace; [done..|].
apply forallb_replace; [done..|]. apply re_sub_class_gone.
Qed.

Lemma sanitize_tag_no_underscore (s : string) :
forallb (fun x => negb (bool_decide ("_"%char = x))) (sanitize_tag s) = true.
Proof.
unfold sanitize_tag. apply forallb_replace; [done..|].
by apply replace_char_gone.
Qed.

(** On a sanitized string the first two steps change nothing: a second
  pass is the third step alone. *)
Lemma sanitize_tag_again (s : string) :
sanitize_tag (sanitize_tag s) = replace " -" " " (sanitize_tag s).
Proof.
unfold sanitize_tag at 1.
rewrite re_sub_class_id by apply sanitize_tag_no_reserved.
rewrite (replace_absent "_"); [done..|].
apply contains_char_false, sanitize_tag_no_underscore.
Qed.

(** C3, as stated, fails: a space followed by two hyphens loses one hyphen
  per pass, so the second pass still changes the text. *)
Lemma sanitize_tag_not_idempotent :
sanitize_tag " --" = " -" /\ sanitize_tag (sanitize_tag " --") = " " /\
sanitize_tag (sanitize_tag " --") <> sanitize_tag " --".
Proof. repeat split. vm_compute. discriminate. Qed.

(** C3, amended: a second pass of [sanitize_tag] changes nothing exactly
  when the first pass left no hyphen directly after a space. *)
Theorem sanitize_tag_idempotent_iff (s : string) :
sanitize_tag (sanitize_tag s) = sanitize_tag s <->
contains " -" (sanitize_tag s) = false.
Proof.
rewrite sanitize_tag_again. apply replace_fixed_iff; [done|simpl; lia].
Qed.

Lemma sanitize_tag_idempotent_iff_witness :
sanitize_tag (sanitize_tag "foo_bar -baz") = sanitize_tag "foo_bar -baz".
Proof. apply sanitize_tag_idempotent_iff. reflexivity. Defined.

(** A text that holds a colon is not the sanitized form of anything. *)
Lemma sanitize_tag_never (s pre post : string) :
sanitize_tag s <> pre +:+ ":" +:+ post.
Proof.
intros H. pose proof (sanitize_tag_no_reserved s) as Hs.
rewrite H, !str_forallb_app in Hs. simpl in Hs.
by rewrite andb_false_r in Hs.
Qed.

End SanitizeFacts.

(** ** The trace *)

Lemma n_calls_app (t u : list Event) : n_calls (t ++ u) = (n_calls t + n_calls u)%nat.
Proof. unfold n_calls. by rewrite List.filter_app, length_app. Qed.

Lemma n_calls_call (t : list Event) (r : Request) :
  n_calls (t ++ [Call r]) = S (n_calls t).
Proof. rewrite n_calls_app. simpl. unfold n_calls at 2. simpl. lia. Qed.

Lemma n_calls_sleep (t : list Event) (tts : Z) :
  n_calls (t ++ [Sleep tts]) = n_calls t.
Proof. rewrite n_calls_app. unfold n_calls at 2. simpl. lia. Qed.

(** ** The retry loop, lines 121-149 *)

Section Retry.

Variable lrr : LRRClient.
Variables arcid title tags summary : string.

Let update := Call (UpdateArchiveMetadata arcid title tags summary).
Let api (n : nat) := update_archive_metadata_api lrr n arcid title tags summary.
Let loop (fuel : nat) := retry_loop lrr fuel arcid title tags summary.

(** One turn of the loop, by the reply it gets. *)
Lemma retry_loop_turn (fuel : nat) (retry_count : Z) (t : list Event) :
  loop (S fuel) retry_count t =
  let t1 := t ++ [update] in
  match api (n_calls t) with
  | Replied (Some err) =>
      if status err =? 423 then
        if retry_count >? max_retries then
          (Raise (Exception ("Persistent lock problem encountered while updating archive "
                               +:+ arcid +:+ ": " +:+ error err)), t1)
        else loop fuel (retry_count + 1) (t1 ++ [Sleep (2 ^ (retry_count + 1))])
      else (Raise (Exception ("Failed to update archive metadata: " +:+ error err)), t1)
  | Replied None => (Ret tt, t1)
  | Raised e =>
      if transient_network e then
        if retry_count >? max_retries then (Raise e, t1)
        else loop fuel (retry_count + 1) (t1 ++ [Sleep (2 ^ (retry_count + 1))])
      else (Raise e, t1)
  end.
Proof.
  unfold loop, api, update. cbn [retry_loop]. unfold bind at 1, remote at 1. cbn iota beta.
  destruct (update_archive_metadata_api lrr (n_calls t) arcid title tags summary)
    as [[err|]|e]; cbn zeta; try done.
  - destruct (status err =? 423); [|done]. by destruct (retry_count >? max_retries).
  - destruct (transient_network e); [|done]. by destruct (retry_count >? max_retries).
Qed.

Lemma retry_loop_locked (fuel : nat) (retry_count : Z) (t : list Event) :
  is_locked (api (n_calls t)) = true -> retry_count <= max_retries ->
  loop (S fuel) retry_count t =
  loop fuel (retry_count + 1) (t ++ [update; Sleep (2 ^ (retry_count + 1))]).
Proof.
  intros Hl Hr. rewrite retry_loop_turn. cbn zeta.
  destruct (api (n_calls t)) as [[err|]|e]; try done. simpl in Hl. rewrite Hl.
  assert ((retry_count >? max_retries) = false) as -> by lia.
  by rewrite <- app_assoc.
Qed.

Lemma retry_loop_last (fuel : nat) (retry_count : Z) (t : list Event) :
  max_retries < retry_count ->
  exists o, loop (S fuel) retry_count t = (o, t ++ [update]) /\ o <> OutOfFuel.
Proof.
  intros Hr. rewrite retry_loop_turn. cbn zeta.
  assert ((retry_count >? max_retries) = true) as -> by lia.
  destruct (api (n_calls t)) as [[err|]|e]; eauto.
  - destruct (status err =? 423); eauto.
  - destruct (transient_network e); eauto.
Qed.

(** The loop ends: from [retry_count] on, [max_retries + 2 - retry_count]
    turns are enough, whatever the server replies. *)
Lemma retry_loop_total (fuel : nat) (retry_count : Z) (t : list Event) :
  (1 <= fuel)%nat -> max_retries + 2 - retry_count <= Z.of_nat fuel ->
  (loop fuel retry_count t).1 <> OutOfFuel.
Proof.
  revert retry_count t. induction fuel as [|fuel IH]; intros rc t H1 H2; [lia|].
  rewrite retry_loop_turn. cbn zeta.
  destruct (rc >? max_retries) eqn:E.
  - destruct (api (n_calls t)) as [[err|]|e]; try done.
    + by destruct (status err =? 423).
    + by destruct (transient_network e).
  - assert (forall t', (loop fuel (rc + 1) t').1 <> OutOfFuel) as Hnext.
    { intros t'. apply IH; unfold max_retries in *; lia. }
    destruct (api (n_calls t)) as [[err|]|e]; try done.
    + by destruct (status err =? 423).
    + by destruct (transient_network e).
Qed.

Lemma n_calls_turn (t : list Event) (tts : Z) :
  n_calls (t ++ [update; Sleep tts]) = S (n_calls t).
Proof. rewrite n_calls_app. unfold n_calls at 2. simpl. lia. Qed.

Local Ltac retry_side :=
  first [ rewrite ?n_calls_turn; done | unfold max_retries; lia ].

(** C9: an error reply whose status is not 423 ends the loop at once,
    at any retry count: the call is the last event, no sleep follows
    and the exception is the one of line 136. *)
Theorem retry_loop_rejected (fuel : nat) (retry_count : Z) (t : list Event)
    (err : LRRError) :
  update_archive_metadata_api lrr (n_calls t) arcid title tags summary
    = Replied (Some err) ->
  status err <> 423 ->
  retry_loop lrr (S fuel) arcid title tags summary retry_count t =
  (Raise (Exception ("Failed to update archive metadata: " +:+ error err)),
   t ++ [Call (UpdateArchiveMetadata arcid title tags summary)]).
Proof.
  intros Hreply Hstatus. fold (loop (S fuel)). rewrite retry_loop_turn. cbn zeta.
  fold (api (n_calls t)) in Hreply. rewrite Hreply.
  by assert ((status err =? 423) = false) as -> by lia.
Qed.

(** C4: three locks and then a success make four update calls with
    sleeps of 2, 4 and 8 seconds between them; in general a lock met at
    retry count [r] in 0..3 is followed by a sleep of [2 ^ (r + 1)]
    seconds, whatever the trace, the archive or the server. *)
Theorem retry_loop_backoff_schedule (t : list Event) :
  let n := n_calls t in
  let new := [update; Sleep 2; update; Sleep 4; update; Sleep 8; update] in
  is_locked (api n) = true ->
  is_locked (api (S n)) = true ->
  is_locked (api (S (S n))) = true ->
  api (S (S (S n))) = Replied None ->
  retry_loop lrr (Z.to_nat (max_retries + 2 - 0)) arcid title tags summary 0 t
    = (Ret tt, t ++ new)
  /\ attempts new = 4%nat
  /\ sleeps new = [2; 4; 8]
  /\ (forall fuel r t',
        0 <= r <= 3 -> is_locked (api (n_calls t')) = true ->
        retry_loop lrr (S fuel) arcid title tags summary r t'
        = retry_loop lrr fuel arcid title tags summary (r + 1)
            (t' ++ [update; Sleep (2 ^ (r + 1))]))
  /\ [2 ^ (0 + 1); 2 ^ (1 + 1); 2 ^ (2 + 1); 2 ^ (3 + 1)] = [2; 4; 8; 16].
Proof.
  intros n new L0 L1 L2 Ok3. split; [|repeat split].
  - change (Z.to_nat (max_retries + 2 - 0)) with 5%nat. fold (loop 5).
    rewrite retry_loop_locked by retry_side.
    rewrite retry_loop_locked by retry_side.
    rewrite retry_loop_locked by retry_side.
    rewrite retry_loop_turn, !n_calls_turn. fold n. rewrite Ok3. cbn zeta.
    by rewrite <- !app_assoc.
  - intros fuel r t' Hr Hl. apply retry_loop_locked; [done|unfold max_retries; lia].
Qed.

(** C2, on the code: after four locks in a row the loop sleeps 16
    seconds and calls a fifth time; a success there is a success of the
    whole loop, and only a fifth lock raises. *)
Theorem retry_loop_four_locks (t : list Event) :
  let n := n_calls t in
  let new := [update; Sleep 2; update; Sleep 4; update; Sleep 8; update;
              Sleep 16; update] in
  is_locked (api n) = true ->
  is_locked (api (S n)) = true ->
  is_locked (api (S (S n))) = true ->
  is_locked (api (S (S (S n)))) = true ->
  attempts new = 5%nat
  /\ (api (S (S (S (S n)))) = Replied None ->
      retry_loop lrr (Z.to_nat (max_retries + 2 - 0)) arcid title tags summary 0 t
      = (Ret tt, t ++ new))
  /\ (forall err,
        api (S (S (S (S n)))) = Replied (Some err) -> status err = 423 ->
        retry_loop lrr (Z.to_nat (max_retries + 2 - 0)) arcid title tags summary 0 t
        = (Raise (Exception ("Persistent lock problem encountered while updating archive "
                               +:+ arcid +:+ ": " +:+ error err)), t ++ new)).
Proof.
  intros n new L0 L1 L2 L3.
  assert (loop 5 0 t
          = loop 1 4 (t ++ [update; Sleep 2; update; Sleep 4; update; Sleep 8;
                            update; Sleep 16])) as Hrun.
  { rewrite retry_loop_locked by retry_side.
    rewrite retry_loop_locked by retry_side.
    rewrite retry_loop_locked by retry_side.
    rewrite retry_loop_locked by retry_side.
    by rewrite <- !app_assoc. }
  assert (n_calls (t ++ [update; Sleep 2; update; Sleep 4; update; Sleep 8;
                         update; Sleep 16]) = S (S (S (S n)))) as Hn.
  { rewrite n_calls_app. unfold n_calls at 2. simpl. unfold n. lia. }
  change (Z.to_nat (max_retries + 2 - 0)) with 5%nat. fold (loop 5).
  rewrite Hrun, retry_loop_turn, Hn. cbn zeta. split; [done|]. split.
  - intros ->. by rewrite <- !app_assoc.
  - intros err -> Hs. assert ((status err =? 423) = true) as -> by lia.
    cbn. by rewrite <- !app_assoc.
Qed.

End Retry.

Lemma retry_loop_rejected_witness :
  retry_loop (scripted_lrr "pixiv_12345" "" 0 [Replied (Some {| status := 500; error := "boom" |})])
    1 "abc123" "T" "tags" "C" 2 []
  = (Raise (Exception "Failed to update archive metadata: boom"),
     [Call (UpdateArchiveMetadata "abc123" "T" "tags" "C")]).
Proof.
  apply (retry_loop_rejected _ _ _ _ _ 0 2 [] {| status := 500; error := "boom" |});
    [reflexivity | simpl; lia].
Defined.

Lemma retry_loop_backoff_schedule_witness :
  retry_loop (scripted_lrr "pixiv_12345" "" 0 [locked; locked; locked])
    5 "abc123" "T" "tags" "C" 0 []
  = (Ret tt,
     let update := Call (UpdateArchiveMetadata "abc123" "T" "tags" "C") in
     [update; Sleep 2; update; Sleep 4; update; Sleep 8; update]).
Proof.
  refine (proj1 (retry_loop_backoff_schedule
                   (scripted_lrr "pixiv_12345" "" 0 [locked; locked; locked])
                   "abc123" "T" "tags" "C" [] _ _ _ _)); reflexivity.
Defined.

Lemma retry_loop_four_locks_witness :
  retry_loop (scripted_lrr "pixiv_12345" "" 0 [locked; locked; locked; locked])
    5 "abc123" "T" "tags" "C" 0 []
  = (Ret tt,
     let update := Call (UpdateArchiveMetadata "abc123" "T" "tags" "C") in
     [update; Sleep 2; update; Sleep 4; update; Sleep 8; update; Sleep 16; update]).
Proof.
  refine (proj1 (proj2 (retry_loop_four_locks
                   (scripted_lrr "pixiv_12345" "" 0 [locked; locked; locked; locked])
                   "abc123" "T" "tags" "C" [] _ _ _ _)) _); reflexivity.
Defined.


(** ** Inside [update_archive_metadata] and [update_lrr_metadata] *)

Section PipelineFacts.

Variable set_iter : list string -> list string.
Variable lrr : LRRClient.
Variable db : Database.

Abbreviation uam := (update_archive_metadata set_iter lrr db).
Abbreviation get arcid := (Call (GetArchiveMetadata arcid)).

Lemma retry_loop_extends (fuel : nat) (arcid title tags summary : string)
    (retry_count : Z) (t : list Event) :
  exists t', (retry_loop lrr fuel arcid title tags summary retry_count t).2 = t ++ t'.
Proof.
  revert retry_count t. induction fuel as [|fuel IH]; intros rc t.
  - exists []. by rewrite app_nil_r.
  - rewrite retry_loop_turn. cbn zeta.
    pose proof (IH (rc + 1)
      ((t ++ [Call (UpdateArchiveMetadata arcid title tags summary)])
         ++ [Sleep (2 ^ (rc + 1))])) as [t' Ht'].
    rewrite <- !app_assoc in Ht'.
    destruct (update_archive_metadata_api lrr (n_calls t) arcid title tags summary)
      as [[err|]|e]; eauto.
    + destruct (status err =? 423); eauto.
      destruct (rc >? max_retries); eauto. rewrite <- !app_assoc. eauto.
    + destruct (transient_network e); eauto.
      destruct (rc >? max_retries); eauto. rewrite <- !app_assoc. eauto.
Qed.

(** A row that the image query returns has the id asked for, and that
    id is one SQLite can hold. *)
Lemma select_master_image_range (pixiv_id : Z) (row : Z * Z * string * string) :
  fetchone (select_master_image db pixiv_id) = Some row ->
  sqlite_integer pixiv_id = true.
Proof.
  unfold fetchone, select_master_image. intros Hrow%head_Some_elem_of.
  apply list_elem_of_filter in Hrow as [[<- Hrange] _]. done.
Qed.

Lemma uam_overflow (arcid : string) (t : list Event)
    (response : ArchiveMetadata) (pixiv_id : Z) :
  get_archive_metadata lrr (n_calls t) arcid = inr response ->
  parse_pixiv_id (filename response) = Ret pixiv_id ->
  sqlite_integer pixiv_id = false ->
  uam arcid t = (Raise OverflowError, t ++ [get arcid]).
Proof.
  intros H1 H2 H3. unfold update_archive_metadata, bind, remote, lift, bind_parameter.
  by rewrite H1, H2, H3.
Qed.

Lemma uam_no_metadata (arcid : string) (t : list Event)
    (response : ArchiveMetadata) (pixiv_id : Z) :
  get_archive_metadata lrr (n_calls t) arcid = inr response ->
  parse_pixiv_id (filename response) = Ret pixiv_id ->
  sqlite_integer pixiv_id = true ->
  fetchone (select_master_image db pixiv_id) = None ->
  uam arcid t = (Ret PIXIVUTIL_NO_METADATA, t ++ [get arcid]).
Proof.
  intros H1 H2 Hrange H3.
  unfold update_archive_metadata, bind, remote, lift, bind_parameter.
  by rewrite H1, H2, Hrange, H3.
Qed.

Lemma uam_no_member (arcid : string) (t : list Event)
    (response : ArchiveMetadata) (pixiv_id image_id member_id : Z)
    (title caption : string) :
  get_archive_metadata lrr (n_calls t) arcid = inr response ->
  parse_pixiv_id (filename response) = Ret pixiv_id ->
  fetchone (select_master_image db pixiv_id) = Some (image_id, member_id, title, caption) ->
  fetchone (select_member_name db member_id) = None ->
  uam arcid t =
  (Raise (Exception ("Pixiv artwork has no member: arcid=" +:+ arcid
                       +:+ ", pixiv_id=" +:+ Py.str pixiv_id)),
   t ++ [get arcid]).
Proof.
  intros H1 H2 H3 H4. pose proof (select_master_image_range _ _ H3) as Hrange.
  unfold update_archive_metadata, bind, remote, lift, bind_parameter.
  by rewrite H1, H2, Hrange, H3, H4.
Qed.

Lemma elem_of_for_i2t_rows (x : string) (rows tag_list : list string) :
  x ∈ for_i2t_rows db rows tag_list <->
  x ∈ tag_list \/
  exists tag_id, tag_id ∈ rows /\
    (x = sanitize_tag tag_id \/
     exists en, fetchone (select_en_translation db tag_id) = Some en /\
                x = sanitize_tag en).
Proof.
  unfold for_i2t_rows. revert tag_list.
  induction rows as [|tag_id rows IH]; intros tag_list; simpl.
  - split; [by left|]. intros [H|(? & []%elem_of_nil & _)]; done.
  - rewrite IH. clear IH. setoid_rewrite elem_of_cons.
    destruct (fetchone (select_en_translation db tag_id)) as [en|] eqn:E;
      rewrite !elem_of_app, !list_elem_of_singleton;
      (split; [intros [H|(tid & Hin & H)]|intros [H|(tid & [->|Hin] & H)]]);
      firstorder (simplify_eq; eauto).
Qed.

Lemma elem_of_select_tag_ids (tag_id : string) (pixiv_id : Z) :
  tag_id ∈ select_tag_ids db pixiv_id <-> (pixiv_id, tag_id) ∈ pixiv_image_to_tag db.
Proof.
  unfold select_tag_ids. rewrite list_elem_of_fmap. split.
  - intros ([i tg] & -> & [Hi Hin]%list_elem_of_filter). simpl in *. by subst.
  - intros Hin. exists (pixiv_id, tag_id). split; [done|].
    by apply list_elem_of_filter.
Qed.

(** What [update_archive_metadata] does once the image row and the
    member row are found: it pushes the joined iteration of a tag list
    whose elements are the ones below. *)
Lemma uam_resolved (arcid : string) (t : list Event)
    (response : ArchiveMetadata) (pixiv_id image_id member_id : Z)
    (title caption member_name : string) :
  get_archive_metadata lrr (n_calls t) arcid = inr response ->
  parse_pixiv_id (filename response) = Ret pixiv_id ->
  fetchone (select_master_image db pixiv_id) = Some (image_id, member_id, title, caption) ->
  fetchone (select_member_name db member_id) = Some member_name ->
  exists tag_list : list string,
    uam arcid t
    = bind (retry_loop lrr (Z.to_nat (max_retries + 2 - 0)) arcid title
              (Py.join "," (set_iter tag_list)) caption 0)
           (fun _ => ret SUCCESS) (t ++ [get arcid])
    /\ forall x,
         x ∈ tag_list <->
         x ∈ Py.strip <$> Py.split "," (tags response)
         \/ x = "source:https://pixiv.net/artworks/" +:+ Py.str image_id
         \/ x = "pixiv_user_id:" +:+ Py.str member_id
         \/ x = "artist:" +:+ sanitize_tag member_name
         \/ (exists tag_id, (pixiv_id, tag_id) ∈ pixiv_image_to_tag db /\
               (x = sanitize_tag tag_id \/
                exists en, fetchone (select_en_translation db tag_id) = Some en /\
                           x = sanitize_tag en))
         \/ (exists created uploaded,
               fetchone (select_date_info db pixiv_id) = Some (created, uploaded) /\
               (x = "date_created:" +:+ Py.str created \/
                x = "date_uploaded:" +:+ Py.str uploaded)).
Proof.
  intros H1 H2 H3 H4. pose proof (select_master_image_range _ _ H3) as Hrange.
  eexists. split.
  - unfold update_archive_metadata at 1.
    unfold bind at 1 2 3, remote at 1, lift, bind_parameter.
    rewrite H1, H2, Hrange, H3, H4. reflexivity.
  - intros x. setoid_rewrite <- elem_of_select_tag_ids.
    destruct (fetchone (select_date_info db pixiv_id)) as [[created uploaded]|];
      rewrite ?elem_of_app, elem_of_for_i2t_rows, !elem_of_app, !list_elem_of_singleton.
    + split.
      * intuition eauto 10.
      * intros [H|[H|[H|[H|[H|(c & u & [= <- <-] & [H|H])]]]]]; intuition eauto.
    + split.
      * intuition eauto 10.
      * intros [H|[H|[H|[H|[H|(c & u & [=] & _)]]]]]; intuition eauto.
Qed.

(** ** The result ledger *)

Lemma record_result_in (key arcid : string) (m : gmap string (list string)) :
  exists bucket, record_result key arcid m !! key = Some bucket /\ arcid ∈ bucket.
Proof.
  unfold record_result. destruct (m !! key) as [bucket|] eqn:E.
  - exists (bucket ++ [arcid]). rewrite lookup_alter_eq, E. split; [done|].
    apply elem_of_app. right. by left.
  - exists [arcid]. rewrite lookup_alter_eq, lookup_insert_eq. split; [done|]. by left.
Qed.

Lemma record_result_mono (key arcid k x : string) (bucket : list string)
    (m : gmap string (list string)) :
  m !! k = Some bucket -> x ∈ bucket ->
  exists bucket', record_result key arcid m !! k = Some bucket' /\ x ∈ bucket'.
Proof.
  intros Hk Hx. unfold record_result. destruct (decide (key = k)) as [->|Hne].
  - rewrite Hk, lookup_alter_eq, Hk. eexists. split; [done|].
    apply elem_of_app. by left.
  - rewrite lookup_alter_ne by done.
    destruct (m !! key); [|rewrite lookup_insert_ne by done]; eauto.
Qed.

Lemma for_arcids_cons (arcid : string) (arcids : list string)
    (m : gmap string (list string)) (t : list Event) :
  for_arcids set_iter lrr db (arcid :: arcids) m t =
  match uam arcid t with
  | (Ret result, t') =>
      for_arcids set_iter lrr db arcids (record_result (value result) arcid m) t'
  | (Raise e, t') => (Raise e, t')
  | (OutOfFuel, t') => (OutOfFuel, t')
  end.
Proof. reflexivity. Qed.

(** A bucket never loses an entry. *)
Lemma for_arcids_mono (arcids : list string) (m m' : gmap string (list string))
    (t t' : list Event) (k x : string) (bucket : list string) :
  for_arcids set_iter lrr db arcids m t = (Ret m', t') ->
  m !! k = Some bucket -> x ∈ bucket ->
  exists bucket', m' !! k = Some bucket' /\ x ∈ bucket'.
Proof.
  revert m t bucket. induction arcids as [|arcid arcids IH]; intros m t bucket.
  - intros [= <- <-]. eauto.
  - rewrite for_arcids_cons. destruct (uam arcid t) as [[result| |] t1]; try done.
    intros Hrun Hk Hx.
    destruct (record_result_mono (value result) arcid k x bucket m Hk Hx)
      as (bucket1 & Hk1 & Hx1).
    eapply IH; eauto.
Qed.

Lemma for_arcids_app (pre rest : list string) (m m1 : gmap string (list string))
    (t t1 : list Event) :
  for_arcids set_iter lrr db pre m t = (Ret m1, t1) ->
  for_arcids set_iter lrr db (pre ++ rest) m t = for_arcids set_iter lrr db rest m1 t1.
Proof.
  revert m t. induction pre as [|arcid pre IH]; intros m t.
  - by intros [= <- <-].
  - rewrite <- app_comm_cons, !for_arcids_cons.
    destruct (uam arcid t) as [[result| |] t']; try done. apply IH.
Qed.

(** ** The preconditions *)

Lemma for_required_tables_missing (tables : list string) (t : list Event) :
  (exists tb_name, tb_name ∈ tables /\ fetchone (select_table db tb_name) = None) ->
  exists e, for_required_tables db tables t = (Raise e, t).
Proof.
  induction tables as [|tb tables IH]; intros (tb_name & Hin & Hnone).
  - by apply elem_of_nil in Hin.
  - simpl. destruct (fetchone (select_table db tb)) eqn:E; [|by eexists].
    apply IH. apply elem_of_cons in Hin as [->|Hin]; [congruence|eauto].
Qed.

Lemma for_required_tables_present (tables : list string) (t : list Event) :
  Forall (fun tb_name => fetchone (select_table db tb_name) <> None) tables ->
  for_required_tables db tables t = (Ret tt, t).
Proof.
  induction 1 as [|tb tables Htb _ IH]; [done|].
  simpl. by destruct (fetchone (select_table db tb)).
Qed.

(** With the preconditions met the run is the loop over the archives. *)
Lemma update_lrr_metadata_run (t : list Event) (arcids : list string) :
  get_shinobu_status lrr (n_calls t) = None ->
  Forall (fun tb_name => fetchone (select_table db tb_name) <> None) required_tables ->
  get_untagged_archives lrr (S (n_calls t)) = inr arcids ->
  update_lrr_metadata set_iter lrr db t =
  for_arcids set_iter lrr db arcids ∅ (t ++ [Call GetShinobuStatus; Call GetUntaggedArchives]).
Proof.
  intros Hs Htb Hun. unfold update_lrr_metadata, bind at 1, remote at 1.
  rewrite Hs. unfold bind at 1. rewrite for_required_tables_present by done.
  unfold bind, remote. rewrite n_calls_call, Hun. by rewrite <- app_assoc.
Qed.

End PipelineFacts.

(** ** The file name, lines 61-66 *)

Lemma first_seen_iterates_set : iterates_set first_seen.
Proof.
  intros l. split; [apply NoDup_remove_dups|]. intros x. apply elem_of_remove_dups.
Qed.

Lemma isdecimal_not_space (c : ascii) :
  Py.isdecimal_char c = true -> negb (Py.isspace c) = true.
Proof.
  unfold Py.isdecimal_char, Py.isspace. intros [H1 H2]%andb_prop.
  apply Z.leb_le in H1, H2. apply negb_true_iff.
  rewrite !orb_false_iff, !andb_false_iff, !Z.leb_gt, !Z.eqb_neq. lia.
Qed.

Lemma isdecimal_isdigit (c : ascii) :
  Py.isdecimal_char c = true -> Py.isdigit_char c = true.
Proof. unfold Py.isdigit_char. by intros ->. Qed.

Lemma split_pixiv (pre rest : string) :
  Py.contains "pixiv_" (pre +:+ "pixiv") = false ->
  Py.contains "pixiv_" rest = false ->
  Py.split "pixiv_" (pre +:+ "pixiv_" +:+ rest) = [pre; rest].
Proof.
  intros Hpre Hrest.
  transitivity (pre :: Py.split "pixiv_" rest).
  - exact (PyFacts.split_first "pixiv" "_" pre rest Hpre).
  - f_equal. by apply PyFacts.split_absent.
Qed.

(** C1, as stated, fails on the file name of the end-to-end scenario:
    the text after [pixiv_] is [12345_p0.jpg], which is not a digit
    string, and the source raises before any lookup. *)
Lemma pixiv_id_with_suffix_is_fatal :
  parse_pixiv_id "pixiv_12345_p0.jpg"
  = Raise (Exception "Invalid Pixiv ID format from filename: pixiv_12345_p0.jpg")
  /\ update_archive_metadata first_seen
       (scripted_lrr "pixiv_12345_p0.jpg" "date_added:500" 1 []) scenario_db "abc123" []
     = (Raise (Exception "Invalid Pixiv ID format from filename: pixiv_12345_p0.jpg"),
        [Call (GetArchiveMetadata "abc123")]).
Proof. split; reflexivity. Qed.

Lemma contains_app_false_l (sub a b : string) :
  Py.contains sub (a +:+ b) = false -> Py.contains sub a = false.
Proof.
  intros H. destruct (Py.contains sub a) eqn:E; [|done].
  apply PyFacts.contains_true_iff in E as (x & y & ->).
  assert (Py.contains sub ((x +:+ sub +:+ y) +:+ b) = true) as Hin; [|congruence].
  apply PyFacts.contains_true_iff. exists x, (y +:+ b).
  by rewrite <- !PyFacts.str_app_assoc.
Qed.

(** The second piece of the split is the text between the first [pixiv_]
    and the next one, or the end of the file name. *)
Lemma split_pixiv_segment (pre mid tail : string) :
  Py.contains "pixiv_" (pre +:+ "pixiv") = false ->
  Py.contains "pixiv_" (mid +:+ "pixiv") = false ->
  tail = "" \/ (exists more, tail = "pixiv_" +:+ more) ->
  Py.split "pixiv_" (pre +:+ "pixiv_" +:+ mid +:+ tail) !! 1%nat = Some mid.
Proof.
  intros Hpre Hmid Htail.
  transitivity ((pre :: Py.split "pixiv_" (mid +:+ tail)) !! 1%nat).
  - f_equal. exact (PyFacts.split_first "pixiv" "_" pre (mid +:+ tail) Hpre).
  - cbn [lookup list_lookup]. destruct Htail as [->|[more ->]].
    + rewrite PyFacts.str_app_nil_r, PyFacts.split_absent; [done..|].
      by apply contains_app_false_l in Hmid.
    + transitivity ((mid :: Py.split "pixiv_" more) !! 0%nat); [|done]. f_equal.
      exact (PyFacts.split_first "pixiv" "_" mid more Hmid).
Qed.

(** ** The pipeline *)

Section RunFacts.

Variable set_iter : list string -> list string.
Variable lrr : LRRClient.
Variable db : Database.

Abbreviation uam := (update_archive_metadata set_iter lrr db).
Abbreviation get arcid := (Call (GetArchiveMetadata arcid)).

(** C5: the tags pushed for an archive are the joined elements of a
    duplicate-free list whose members are exactly: the trimmed entries
    of the archive's current tags, as they are; the [source:] and
    [pixiv_user_id:] tags, as they are; [artist:] with the sanitized
    member name; the sanitized tag id of every link row and the
    sanitized English translation where one exists; the two date tags
    with the epochs printed as integers.  None of the four generated
    tags is a sanitized string. *)
Theorem resolved_tag_set (arcid : string) (t : list Event)
    (response : ArchiveMetadata) (pixiv_id image_id member_id : Z)
    (title caption member_name : string) :
  iterates_set set_iter ->
  get_archive_metadata lrr (n_calls t) arcid = inr response ->
  parse_pixiv_id (filename response) = Ret pixiv_id ->
  fetchone (select_master_image db pixiv_id) = Some (image_id, member_id, title, caption) ->
  fetchone (select_member_name db member_id) = Some member_name ->
  exists tag_set : list string,
    uam arcid t
    = bind (retry_loop lrr (Z.to_nat (max_retries + 2 - 0)) arcid title
              (Py.join "," tag_set) caption 0)
           (fun _ => ret SUCCESS) (t ++ [get arcid])
    /\ NoDup tag_set
    /\ (forall x,
         x ∈ tag_set <->
         x ∈ Py.strip <$> Py.split "," (tags response)
         \/ x = "source:https://pixiv.net/artworks/" +:+ Py.str image_id
         \/ x = "pixiv_user_id:" +:+ Py.str member_id
         \/ x = "artist:" +:+ sanitize_tag member_name
         \/ (exists tag_id, (pixiv_id, tag_id) ∈ pixiv_image_to_tag db /\
               (x = sanitize_tag tag_id \/
                exists en, fetchone (select_en_translation db tag_id) = Some en /\
                           x = sanitize_tag en))
         \/ (exists created uploaded,
               fetchone (select_date_info db pixiv_id) = Some (created, uploaded) /\
               (x = "date_created:" +:+ Py.str created \/
                x = "date_uploaded:" +:+ Py.str uploaded)))
    /\ (forall s n,
          sanitize_tag s <> "source:https://pixiv.net/artworks/" +:+ Py.str n
          /\ sanitize_tag s <> "pixiv_user_id:" +:+ Py.str n
          /\ sanitize_tag s <> "date_created:" +:+ Py.str n
          /\ sanitize_tag s <> "date_uploaded:" +:+ Py.str n).
Proof.
  intros Hset H1 H2 H3 H4.
  destruct (uam_resolved set_iter lrr db arcid t response pixiv_id image_id member_id
              title caption member_name H1 H2 H3 H4) as (tag_list & Hrun & Hmem).
  exists (set_iter tag_list). destruct (Hset tag_list) as [Hnodup Hiter].
  split; [done|]. split; [done|]. split.
  - intros x. by rewrite Hiter.
  - intros s n. repeat split.
    + apply (sanitize_tag_never s "source" ("https://pixiv.net/artworks/" +:+ Py.str n)).
    + apply (sanitize_tag_never s "pixiv_user_id" (Py.str n)).
    + apply (sanitize_tag_never s "date_created" (Py.str n)).
    + apply (sanitize_tag_never s "date_uploaded" (Py.str n)).
Qed.

Lemma retry_loop_first_call (fuel : nat) (arcid title tags summary : string)
    (retry_count : Z) (t : list Event) :
  exists o t',
    retry_loop lrr (S fuel) arcid title tags summary retry_count t
    = (o, t ++ [Call (UpdateArchiveMetadata arcid title tags summary)] ++ t').
Proof.
  rewrite retry_loop_turn. cbn zeta.
  set (t1 := t ++ [Call (UpdateArchiveMetadata arcid title tags summary)]).
  destruct (retry_loop_extends lrr fuel arcid title tags summary (retry_count + 1)
              (t1 ++ [Sleep (2 ^ (retry_count + 1))])) as [t' Ht'].
  assert (exists o t', retry_loop lrr fuel arcid title tags summary (retry_count + 1)
                         (t1 ++ [Sleep (2 ^ (retry_count + 1))])
                       = (o, t ++ [Call (UpdateArchiveMetadata arcid title tags summary)] ++ t'))
    as Hnext.
  { destruct (retry_loop lrr fuel arcid title tags summary (retry_count + 1)
                (t1 ++ [Sleep (2 ^ (retry_count + 1))])) as [o t2].
    simpl in Ht'. subst t2. exists o, ([Sleep (2 ^ (retry_count + 1))] ++ t').
    unfold t1. by rewrite <- !app_assoc. }
  assert (forall o : outcome unit, exists o' t',
            (o, t1) = (o', t ++ [Call (UpdateArchiveMetadata arcid title tags summary)] ++ t'))
    as Hstop.
  { intros o. exists o, []. by rewrite app_nil_r. }
  destruct (update_archive_metadata_api lrr (n_calls t) arcid title tags summary)
    as [[err|]|e]; eauto.
  - destruct (status err =? 423); eauto. destruct (retry_count >? max_retries); eauto.
  - destruct (transient_network e); eauto. destruct (retry_count >? max_retries); eauto.
Qed.

(** C10: when the archive's current tags are the empty string, splitting
    them at the commas gives the one-element list holding the empty
    string, and that is the seed of the tag list.  The set the code
    builds from it (duplicate-free, with exactly the empty string, the
    three generated tags, the sanitized tags of the link rows and the
    date tags as members) therefore holds the empty string, and the
    text of the update call, which is that set joined with commas, has
    an empty entry: it starts with a comma, ends with one or has two
    side by side, and splitting it at the commas gives the empty
    string back among the pieces of the set's entries. *)
Theorem empty_tags_push_empty_entry (arcid : string) (t : list Event)
    (response : ArchiveMetadata) (pixiv_id image_id member_id : Z)
    (title caption member_name : string) :
  iterates_set set_iter ->
  get_archive_metadata lrr (n_calls t) arcid = inr response ->
  tags response = "" ->
  parse_pixiv_id (filename response) = Ret pixiv_id ->
  fetchone (select_master_image db pixiv_id) = Some (image_id, member_id, title, caption) ->
  fetchone (select_member_name db member_id) = Some member_name ->
  Py.split "," (tags response) = [""]
  /\ Py.strip <$> Py.split "," (tags response) = [""]
  /\ exists (tag_set : list string) o t',
       uam arcid t
       = (o, t ++ [get arcid;
                   Call (UpdateArchiveMetadata arcid title (Py.join "," tag_set) caption)]
               ++ t')
       /\ NoDup tag_set
       /\ (forall x,
            x ∈ tag_set <->
            x = ""
            \/ x = "source:https://pixiv.net/artworks/" +:+ Py.str image_id
            \/ x = "pixiv_user_id:" +:+ Py.str member_id
            \/ x = "artist:" +:+ sanitize_tag member_name
            \/ (exists tag_id, (pixiv_id, tag_id) ∈ pixiv_image_to_tag db /\
                  (x = sanitize_tag tag_id \/
                   exists en, fetchone (select_en_translation db tag_id) = Some en /\
                              x = sanitize_tag en))
            \/ (exists created uploaded,
                  fetchone (select_date_info db pixiv_id) = Some (created, uploaded) /\
                  (x = "date_created:" +:+ Py.str created \/
                   x = "date_uploaded:" +:+ Py.str uploaded)))
       /\ "" ∈ tag_set
       /\ ((exists rest, Py.join "," tag_set = "," +:+ rest)
           \/ (exists a b, Py.join "," tag_set = a +:+ ",," +:+ b)
           \/ (exists init, Py.join "," tag_set = init +:+ ","))
       /\ Py.split "," (Py.join "," tag_set) = tag_set ≫= Py.split ","
       /\ "" ∈ Py.split "," (Py.join "," tag_set).
Proof.
  intros Hset H1 Htags H2 H3 H4.
  split; [by rewrite Htags|]. split; [by rewrite Htags|].
  destruct (uam_resolved set_iter lrr db arcid t response pixiv_id image_id member_id
              title caption member_name H1 H2 H3 H4) as (tag_list & Hrun & Hmem).
  destruct (Hset tag_list) as [Hnodup Hiter].
  assert (forall x, x ∈ Py.strip <$> Py.split "," (tags response) <-> x = "") as Hseed.
  { intros x. rewrite Htags. apply list_elem_of_singleton. }
  assert ("" ∈ set_iter tag_list) as Hin.
  { apply Hiter, Hmem. left. by apply Hseed. }
  assert ("source:https://pixiv.net/artworks/" +:+ Py.str image_id ∈ set_iter tag_list)
    as Hsource.
  { apply Hiter, Hmem. right. by left. }
  destruct (retry_loop_first_call 4 arcid title (Py.join "," (set_iter tag_list))
              caption 0 (t ++ [get arcid])) as (o & t' & Hloop).
  change (Z.to_nat (max_retries + 2 - 0)) with 5%nat in Hrun.
  unfold bind in Hrun. rewrite Hloop in Hrun. rewrite <- app_assoc in Hrun.
  assert (set_iter tag_list <> []) as Hnil.
  { intros E. rewrite E in Hin. by apply elem_of_nil in Hin. }
  exists (set_iter tag_list).
  assert (exists o1, uam arcid t
            = (o1, t ++ [get arcid;
                         Call (UpdateArchiveMetadata arcid title
                                 (Py.join "," (set_iter tag_list)) caption)] ++ t'))
    as [o1 Ho1].
  { destruct o as [[]| |]; by eexists. }
  exists o1, t'. split; [exact Ho1|]. split; [done|]. split.
  { intros x. by rewrite Hiter, Hmem, Hseed. }
  split; [done|]. split.
  { apply PyFacts.join_empty_entry; [done|]. eexists. split; [exact Hsource|done]. }
  split; [by apply PyFacts.split_join_char|].
  by apply PyFacts.split_join_empty.
Qed.

(** C6, amended: an archive whose file name parses to an image id that
    SQLite can hold (a 64-bit signed integer) and that has no row in
    [pixiv_master_image] gives [PIXIVUTIL_NO_METADATA] after the one
    metadata read, with no exception; the loop files the archive id in
    that bucket and goes on with the archives that follow, and a run
    that completes still has it there. *)
Theorem no_metadata_is_skipped (arcid : string) (arcids : list string)
    (result_mapping : gmap string (list string)) (t : list Event)
    (response : ArchiveMetadata) (pixiv_id : Z) :
  get_archive_metadata lrr (n_calls t) arcid = inr response ->
  parse_pixiv_id (filename response) = Ret pixiv_id ->
  sqlite_integer pixiv_id = true ->
  fetchone (select_master_image db pixiv_id) = None ->
  uam arcid t = (Ret PIXIVUTIL_NO_METADATA, t ++ [get arcid])
  /\ for_arcids set_iter lrr db (arcid :: arcids) result_mapping t
     = for_arcids set_iter lrr db arcids
         (record_result "PIXIVUTIL_NO_METADATA" arcid result_mapping) (t ++ [get arcid])
  /\ (exists bucket,
        record_result "PIXIVUTIL_NO_METADATA" arcid result_mapping
          !! "PIXIVUTIL_NO_METADATA" = Some bucket /\ arcid ∈ bucket)
  /\ (forall final t',
        for_arcids set_iter lrr db (arcid :: arcids) result_mapping t = (Ret final, t') ->
        exists bucket, final !! "PIXIVUTIL_NO_METADATA" = Some bucket /\ arcid ∈ bucket).
Proof.
  intros H1 H2 Hrange H3.
  pose proof (uam_no_metadata set_iter lrr db arcid t response pixiv_id H1 H2 Hrange H3)
    as Hskip.
  assert (for_arcids set_iter lrr db (arcid :: arcids) result_mapping t
          = for_arcids set_iter lrr db arcids
              (record_result "PIXIVUTIL_NO_METADATA" arcid result_mapping)
              (t ++ [get arcid])) as Hnext.
  { by rewrite for_arcids_cons, Hskip. }
  destruct (record_result_in "PIXIVUTIL_NO_METADATA" arcid result_mapping)
    as (bucket & Hbucket & Hin).
  repeat split; [done|done|by exists bucket|].
  intros final t' Hrun. rewrite Hnext in Hrun.
  by eapply for_arcids_mono.
Qed.

(** C7: an archive whose image row names a member without a row in
    [pixiv_master_member] raises the exception of line 87, which is not
    the skip result; the loop stops there, and so does the run: the
    metadata read of that archive is the last event and the caller gets
    the exception, not a result mapping. *)
Theorem missing_member_aborts_run (t0 : list Event) (pre : list string)
    (arcid : string) (rest : list string)
    (done_so_far : gmap string (list string)) (t : list Event)
    (response : ArchiveMetadata) (pixiv_id image_id member_id : Z)
    (title caption : string) :
  get_shinobu_status lrr (n_calls t0) = None ->
  Forall (fun tb_name => fetchone (select_table db tb_name) <> None) required_tables ->
  get_untagged_archives lrr (S (n_calls t0)) = inr (pre ++ arcid :: rest) ->
  for_arcids set_iter lrr db pre ∅ (t0 ++ [Call GetShinobuStatus; Call GetUntaggedArchives])
    = (Ret done_so_far, t) ->
  get_archive_metadata lrr (n_calls t) arcid = inr response ->
  parse_pixiv_id (filename response) = Ret pixiv_id ->
  fetchone (select_master_image db pixiv_id) = Some (image_id, member_id, title, caption) ->
  fetchone (select_member_name db member_id) = None ->
  let fatal := Exception ("Pixiv artwork has no member: arcid=" +:+ arcid
                            +:+ ", pixiv_id=" +:+ Py.str pixiv_id) in
  uam arcid t = (Raise fatal, t ++ [get arcid])
  /\ uam arcid t <> (Ret PIXIVUTIL_NO_METADATA, t ++ [get arcid])
  /\ for_arcids set_iter lrr db (arcid :: rest) done_so_far t
     = (Raise fatal, t ++ [get arcid])
  /\ update_lrr_metadata set_iter lrr db t0 = (Raise fatal, t ++ [get arcid]).
Proof.
  intros Hs Htb Hun Hpre H1 H2 H3 H4 fatal.
  pose proof (uam_no_member set_iter lrr db arcid t response pixiv_id image_id member_id
                title caption H1 H2 H3 H4) as Hraise.
  fold fatal in Hraise.
  assert (for_arcids set_iter lrr db (arcid :: rest) done_so_far t
          = (Raise fatal, t ++ [get arcid])) as Hloop.
  { by rewrite for_arcids_cons, Hraise. }
  repeat split; [done|by rewrite Hraise|done|].
  rewrite (update_lrr_metadata_run set_iter lrr db t0 (pre ++ arcid :: rest)) by done.
  by rewrite (for_arcids_app set_iter lrr db pre (arcid :: rest) ∅ done_so_far _ t).
Qed.

(** C8: when the session check returns an error, or when one of the
    seven required tables is missing from [sqlite_master], the run
    raises with the session check as its only event: no archive list is
    asked for, no metadata is read, no update is sent and no result
    mapping is returned. *)
Theorem precondition_failure_is_fatal (t : list Event) :
  is_Some (get_shinobu_status lrr (n_calls t))
  \/ (exists tb_name, tb_name ∈ required_tables /\
                      fetchone (select_table db tb_name) = None) ->
  length required_tables = 7%nat
  /\ exists e, update_lrr_metadata set_iter lrr db t
               = (Raise e, t ++ [Call GetShinobuStatus]).
Proof.
  intros Hfail. split; [done|].
  unfold update_lrr_metadata, bind at 1, remote at 1.
  destruct (get_shinobu_status lrr (n_calls t)) as [err|] eqn:Hs; [by eexists|].
  destruct Hfail as [[err Herr]|Hmissing]; [done|].
  destruct (for_required_tables_missing db required_tables
              (t ++ [Call GetShinobuStatus]) Hmissing) as [e He].
  exists e. unfold bind. by rewrite He.
Qed.

(** ** The functions always come back *)

Lemma update_archive_metadata_total (arcid : string) (t : list Event) :
  (uam arcid t).1 <> OutOfFuel.
Proof.
  unfold update_archive_metadata, bind at 1, remote at 1.
  destruct (get_archive_metadata lrr (n_calls t) arcid) as [err|response]; [done|].
  unfold bind at 1, lift.
  destruct (parse_pixiv_id (filename response)) as [pixiv_id| |] eqn:Hp; try done.
  - unfold bind at 1, lift, bind_parameter.
    destruct (sqlite_integer pixiv_id); [|done].
    destruct (fetchone (select_master_image db pixiv_id))
      as [[[[image_id member_id] title] caption]|]; [|done].
    destruct (fetchone (select_member_name db member_id)) as [member_name|]; [|done].
    unfold bind.
    match goal with
    | |- context [retry_loop lrr ?f ?a ?ti ?tg ?su ?rc ?tr] =>
        pose proof (retry_loop_total lrr a ti tg su f rc tr) as Htot;
        destruct (retry_loop lrr f a ti tg su rc tr) as [[[]|e|] t']
    end; try done.
    exfalso. apply Htot; [unfold max_retries; simpl; lia..|done].
  - unfold parse_pixiv_id in Hp.
    destruct (Py.split "pixiv_" (filename response) !! 1%nat); [|done].
    destruct (negb (Py.isdigit (Py.strip s))); [done|].
    by destruct (Py.int (Py.strip s)).
Qed.

Lemma for_arcids_total (arcids : list string) (m : gmap string (list string))
    (t : list Event) :
  (for_arcids set_iter lrr db arcids m t).1 <> OutOfFuel.
Proof.
  revert m t. induction arcids as [|arcid arcids IH]; intros m t; [done|].
  rewrite for_arcids_cons. pose proof (update_archive_metadata_total arcid t) as Htot.
  destruct (uam arcid t) as [[result|e|] t']; [apply IH|done|done].
Qed.

Theorem update_lrr_metadata_total (t : list Event) :
  (update_lrr_metadata set_iter lrr db t).1 <> OutOfFuel.
Proof.
  unfold update_lrr_metadata, bind at 1, remote at 1.
  destruct (get_shinobu_status lrr (n_calls t)) as [err|]; [done|].
  unfold bind at 1.
  assert (forall tables t1, (for_required_tables db tables t1).1 <> OutOfFuel
                            /\ (for_required_tables db tables t1).2 = t1) as Htb.
  { induction tables as [|tb tables IH]; intros t1; [done|]. simpl.
    destruct (fetchone (select_table db tb)); [apply IH|done]. }
  destruct (Htb required_tables (t ++ [Call GetShinobuStatus])) as [Hne _].
  destruct (for_required_tables db required_tables (t ++ [Call GetShinobuStatus]))
    as [[[]|e|] t1]; try done.
  unfold bind, remote.
  destruct (get_untagged_archives lrr (n_calls t1)) as [err|arcids]; [done|].
  apply for_arcids_total.
Qed.

End RunFacts.

(** C1, amended: resolution takes the text between the first [pixiv_] of
    the file name and the next [pixiv_] (or the end of the name) and
    strips the blanks at its ends.  When what is left is a non-empty run
    of at most 4300 ASCII digits, the image id is the value of that run;
    resolution then goes on to the lookup when the id is an SQLite
    INTEGER (below 2^63), and raises [OverflowError] at the query
    otherwise.  In the end-to-end scenario with file name [pixiv_12345]
    it gives title T, summary C and the seven tags, in the order of the
    set.  An exception is raised when the text holds a character that is
    neither a digit nor a blank, when nothing is left of it after the
    blanks are stripped, when it is a run of more than 4300 digits
    ([ValueError]) and when [pixiv_] is absent ([IndexError]). *)
Theorem parse_pixiv_id_spec :
  (forall pre mid tail digits,
     Py.contains "pixiv_" (pre +:+ "pixiv") = false ->
     Py.contains "pixiv_" (mid +:+ "pixiv") = false ->
     tail = "" \/ (exists more, tail = "pixiv_" +:+ more) ->
     Py.strip mid = digits ->
     Py.nonempty digits = true ->
     Py.forallb Py.isdecimal_char digits = true ->
     (String.length digits <= 4300)%nat ->
     parse_pixiv_id (pre +:+ "pixiv_" +:+ mid +:+ tail) = Ret (Py.int_go 0 digits))
  /\ (forall pre mid tail,
        Py.contains "pixiv_" (pre +:+ "pixiv") = false ->
        Py.contains "pixiv_" (mid +:+ "pixiv") = false ->
        tail = "" \/ (exists more, tail = "pixiv_" +:+ more) ->
        Py.forallb (fun c => Py.isdigit_char c || Py.isspace c) mid = false ->
        parse_pixiv_id (pre +:+ "pixiv_" +:+ mid +:+ tail)
        = Raise (Exception ("Invalid Pixiv ID format from filename: "
                              +:+ pre +:+ "pixiv_" +:+ mid +:+ tail)))
  /\ (forall pre mid tail,
        Py.contains "pixiv_" (pre +:+ "pixiv") = false ->
        Py.contains "pixiv_" (mid +:+ "pixiv") = false ->
        tail = "" \/ (exists more, tail = "pixiv_" +:+ more) ->
        Py.strip mid = "" ->
        parse_pixiv_id (pre +:+ "pixiv_" +:+ mid +:+ tail)
        = Raise (Exception ("Invalid Pixiv ID format from filename: "
                              +:+ pre +:+ "pixiv_" +:+ mid +:+ tail)))
  /\ (forall pre mid tail digits,
        Py.contains "pixiv_" (pre +:+ "pixiv") = false ->
        Py.contains "pixiv_" (mid +:+ "pixiv") = false ->
        tail = "" \/ (exists more, tail = "pixiv_" +:+ more) ->
        Py.strip mid = digits ->
        Py.forallb Py.isdecimal_char digits = true ->
        (4300 < String.length digits)%nat ->
        parse_pixiv_id (pre +:+ "pixiv_" +:+ mid +:+ tail) = Raise ValueError)
  /\ (forall filename,
        Py.contains "pixiv_" filename = false ->
        parse_pixiv_id filename = Raise IndexError)
  /\ (forall set_iter lrr db arcid t response pixiv_id,
        get_archive_metadata lrr (n_calls t) arcid = inr response ->
        parse_pixiv_id (filename response) = Ret pixiv_id ->
        (sqlite_integer pixiv_id = false ->
         update_archive_metadata set_iter lrr db arcid t
         = (Raise OverflowError, t ++ [Call (GetArchiveMetadata arcid)]))
        /\ (sqlite_integer pixiv_id = true ->
            (fetchone (select_master_image db pixiv_id) = None ->
             update_archive_metadata set_iter lrr db arcid t
             = (Ret PIXIVUTIL_NO_METADATA, t ++ [Call (GetArchiveMetadata arcid)]))
            /\ (forall image_id member_id title caption,
                  fetchone (select_master_image db pixiv_id)
                  = Some (image_id, member_id, title, caption) ->
                  (fetchone (select_member_name db member_id) = None ->
                   update_archive_metadata set_iter lrr db arcid t
                   = (Raise (Exception ("Pixiv artwork has no member: arcid=" +:+ arcid
                                          +:+ ", pixiv_id=" +:+ Py.str pixiv_id)),
                      t ++ [Call (GetArchiveMetadata arcid)]))
                  /\ (forall member_name,
                        fetchone (select_member_name db member_id) = Some member_name ->
                        exists pushed o t',
                          update_archive_metadata set_iter lrr db arcid t
                          = (o, t ++ [Call (GetArchiveMetadata arcid);
                                      Call (UpdateArchiveMetadata arcid title pushed caption)]
                                  ++ t')))))
  /\ (forall set_iter,
        update_archive_metadata set_iter
          (scripted_lrr "pixiv_12345" "date_added:500" 1 []) scenario_db "abc123" []
        = (Ret SUCCESS,
           [Call (GetArchiveMetadata "abc123");
            Call (UpdateArchiveMetadata "abc123" "T"
                    (Py.join ","
                       (set_iter
                          ["date_added:500"; "source:https://pixiv.net/artworks/12345";
                           "pixiv_user_id:7"; "artist:Foo Bar"; "scenery";
                           "date_created:1000"; "date_uploaded:2000"]))
                    "C")])).
Proof.
  split; [|split; [|split; [|split; [|split; [|split]]]]].
  - intros pre mid tail digits Hpre Hmid Htail Hstrip Hne Hdigits Hlen.
    unfold parse_pixiv_id. rewrite split_pixiv_segment by done. cbn zeta.
    rewrite Hstrip. unfold Py.isdigit, Py.int, Py.int_max_str_digits.
    rewrite Hne, Hdigits, (PyFacts.str_forallb_impl _ _ _ isdecimal_isdigit Hdigits).
    by apply Nat.leb_le in Hlen as ->.
  - intros pre mid tail Hpre Hmid Htail Hbad. unfold parse_pixiv_id.
    rewrite split_pixiv_segment by done. cbn zeta.
    assert (Py.isdigit (Py.strip mid) = false) as ->; [|done].
    unfold Py.isdigit. apply andb_false_iff. right.
    destruct (Py.forallb Py.isdigit_char (Py.strip mid)) eqn:E; [|done].
    apply (PyFacts.str_forallb_impl _ (fun c => Py.isdigit_char c || Py.isspace c)) in E.
    + rewrite PyFacts.forallb_strip in E; [congruence|].
      intros c ->. apply orb_true_r.
    + intros c ->. done.
  - intros pre mid tail Hpre Hmid Htail Hstrip. unfold parse_pixiv_id.
    rewrite split_pixiv_segment by done. cbn zeta. by rewrite Hstrip.
  - intros pre mid tail digits Hpre Hmid Htail Hstrip Hdigits Hlen.
    unfold parse_pixiv_id. rewrite split_pixiv_segment by done. cbn zeta.
    rewrite Hstrip. unfold Py.isdigit, Py.int, Py.int_max_str_digits.
    assert (Py.nonempty digits = true) as ->.
    { destruct digits; [simpl in Hlen; lia|done]. }
    rewrite Hdigits, (PyFacts.str_forallb_impl _ _ _ isdecimal_isdigit Hdigits).
    by apply Nat.leb_gt in Hlen as ->.
  - intros filename Habsent. unfold parse_pixiv_id.
    by rewrite PyFacts.split_absent.
  - intros set_iter lrr db arcid t response pixiv_id H1 H2. split.
    + intros Hrange. by eapply uam_overflow.
    + intros Hrange. split; [intros H3; by eapply uam_no_metadata|].
      intros image_id member_id title caption H3. split.
      * intros H4. by eapply uam_no_member.
      * intros member_name H4.
        destruct (uam_resolved set_iter lrr db arcid t response pixiv_id image_id member_id
                    title caption member_name H1 H2 H3 H4) as (tag_list & Hrun & _).
        destruct (retry_loop_first_call lrr 4 arcid title (Py.join "," (set_iter tag_list))
                    caption 0 (t ++ [Call (GetArchiveMetadata arcid)])) as (o & t' & Hloop).
        change (Z.to_nat (max_retries + 2 - 0)) with 5%nat in Hrun.
        unfold bind in Hrun. rewrite Hloop in Hrun. rewrite <- app_assoc in Hrun.
        exists (Py.join "," (set_iter tag_list)).
        destruct o as [[]| |]; (eexists _, t'; exact Hrun).
  - intros set_iter. reflexivity.
Qed.

Lemma parse_pixiv_id_spec_witness : parse_pixiv_id "pixiv_12345" = Ret 12345.
Proof.
  apply (proj1 parse_pixiv_id_spec "" "12345" "" "12345");
    try reflexivity; [by left | simpl; lia].
Defined.

(** ** The scenario, through the theorems *)

Lemma resolved_tag_set_witness :
  exists tag_set : list string,
    NoDup tag_set /\ "artist:Foo Bar" ∈ tag_set /\ "date_added:500" ∈ tag_set.
Proof.
  destruct (resolved_tag_set first_seen
              (scripted_lrr "pixiv_12345" "date_added:500" 1 []) scenario_db "abc123" []
              {| filename := "pixiv_12345"; tags := "date_added:500" |}
              12345 12345 7 "T" "C" "Foo_Bar")
    as (tag_set & _ & Hnodup & Hmem & _);
    [exact first_seen_iterates_set | reflexivity..|].
  exists tag_set. split; [exact Hnodup|]. split; apply Hmem.
  - right; right; right; left. reflexivity.
  - left. vm_compute. left.
Defined.

Lemma empty_tags_push_empty_entry_witness :
  exists (tag_set : list string) o t',
    update_archive_metadata first_seen (scripted_lrr "pixiv_12345" "" 1 []) scenario_db
      "abc123" []
    = (o, [] ++ [Call (GetArchiveMetadata "abc123");
                 Call (UpdateArchiveMetadata "abc123" "T" (Py.join "," tag_set) "C")]
             ++ t')
    /\ "" ∈ tag_set
    /\ ((exists rest, Py.join "," tag_set = "," +:+ rest)
        \/ (exists a b, Py.join "," tag_set = a +:+ ",," +:+ b)
        \/ (exists init, Py.join "," tag_set = init +:+ ","))
    /\ "" ∈ Py.split "," (Py.join "," tag_set).
Proof.
  destruct (empty_tags_push_empty_entry first_seen
              (scripted_lrr "pixiv_12345" "" 1 []) scenario_db "abc123" []
              {| filename := "pixiv_12345"; tags := "" |}
              12345 12345 7 "T" "C" "Foo_Bar")
    as (_ & _ & tag_set & o & t' & Hrun & _ & _ & Hin & Hshape & _ & Hentry);
    [exact first_seen_iterates_set | reflexivity..|].
  exists tag_set, o, t'. repeat split; assumption.
Defined.

(** C6 without the bound on the id fails: the file name
    [pixiv_9223372036854775808] parses, to 2^63, and no image row has
    that id, yet the archive is not skipped: binding the id to the query
    of line 67 raises [OverflowError], and the run ends there without a
    result mapping. *)
Lemma huge_pixiv_id_is_not_skipped :
  parse_pixiv_id "pixiv_9223372036854775808" = Ret (2 ^ 63)
  /\ fetchone (select_master_image scenario_db (2 ^ 63)) = None
  /\ update_archive_metadata first_seen
       (scripted_lrr "pixiv_9223372036854775808" "" 1 []) scenario_db "abc123" []
     = (Raise OverflowError, [Call (GetArchiveMetadata "abc123")])
  /\ update_lrr_metadata first_seen
       (scripted_lrr "pixiv_9223372036854775808" "" 3 []) scenario_db []
     = (Raise OverflowError,
        [Call GetShinobuStatus; Call GetUntaggedArchives;
         Call (GetArchiveMetadata "abc123")]).
Proof.
  repeat split; vm_compute; reflexivity.
Qed.

Lemma no_metadata_is_skipped_witness :
  update_archive_metadata first_seen (scripted_lrr "pixiv_999" "" 1 []) scenario_db "abc123" []
  = (Ret PIXIVUTIL_NO_METADATA, [Call (GetArchiveMetadata "abc123")]).
Proof.
  refine (proj1 (no_metadata_is_skipped first_seen
                   (scripted_lrr "pixiv_999" "" 1 []) scenario_db "abc123" [] ∅ []
                   {| filename := "pixiv_999"; tags := "" |} 999 _ _ _ _)); reflexivity.
Defined.

Lemma missing_member_aborts_run_witness :
  update_lrr_metadata first_seen (scripted_lrr "pixiv_12345" "" 3 []) scenario_db_no_member []
  = (Raise (Exception "Pixiv artwork has no member: arcid=abc123, pixiv_id=12345"),
     [Call GetShinobuStatus; Call GetUntaggedArchives; Call (GetArchiveMetadata "abc123")]).
Proof.
  refine (proj2 (proj2 (proj2
            (missing_member_aborts_run first_seen
               (scripted_lrr "pixiv_12345" "" 3 []) scenario_db_no_member
               [] [] "abc123" [] ∅ [Call GetShinobuStatus; Call GetUntaggedArchives]
               {| filename := "pixiv_12345"; tags := "" |} 12345 12345 7 "T" "C"
               _ _ _ _ _ _ _ _))));
    try reflexivity.
  by apply (bool_decide_unpack _).
Defined.

Lemma precondition_failure_is_fatal_witness :
  (exists e, update_lrr_metadata first_seen refusing_lrr scenario_db []
             = (Raise e, [Call GetShinobuStatus]))
  /\ (exists e, update_lrr_metadata first_seen (scripted_lrr "pixiv_12345" "" 3 [])
                  scenario_db_no_tag_table []
                = (Raise e, [Call GetShinobuStatus])).
Proof.
  split.
  - refine (proj2 (precondition_failure_is_fatal first_seen refusing_lrr scenario_db [] _)).
    left. by eexists.
  - refine (proj2 (precondition_failure_is_fatal first_seen
                     (scripted_lrr "pixiv_12345" "" 3 []) scenario_db_no_tag_table [] _)).
    right. exists "pixiv_master_tag". split; [|reflexivity].
    by apply (bool_decide_unpack _).
Defined.

(* ===================================================================== *)
(** * Part III: further properties                                        *)
(* ===================================================================== *)

Section SanitizeMore.
Import Py PyFacts.

Lemma contains_char (c : ascii) (s : string) :
  contains (String c "") s = negb (forallb (fun x => negb (bool_decide (c = x))) s).
Proof.
  unfold contains. induction s as [|x s IH]; [done|].
  rewrite partition_eq, prefix_char. cbn [forallb].
  destruct (bool_decide (c = x)); [done|]. cbn [negb andb].
  rewrite <- IH. by destruct (partition (String c "") s) as [[a b]|].
Qed.

Lemma forallb_re_sub_class_inv (p class : ascii -> bool) (s : string) :
  (forall c, class c = true -> p c = true) ->
  forallb p (re_sub_class class s) = forallb p s.
Proof.
  intros Hp. induction s as [|c s IH]; [done|]. simpl.
  destruct (class c) eqn:E; simpl; rewrite IH; [|done]. by rewrite (Hp c E).
Qed.

Lemma forallb_replace_inv (p : ascii -> bool) (old new s : string) :
  old <> "" -> forallb p old = true -> forallb p new = true ->
  forallb p (replace old new s) = forallb p s.
Proof.
  intros Hold Hpo Hpn. induction s as [|s E IH|c s E IH] using (scan_ind old Hold).
  - by rewrite replace_nil.
  - rewrite replace_at, str_forallb_app, Hpn, IH by done.
    apply prefix_true in E. rewrite E at 2. by rewrite str_forallb_app, Hpo.
  - rewrite replace_skip by done. simpl. by rewrite IH.
Qed.

Lemma length_re_sub_class (class : ascii -> bool) (s : string) :
  (String.length (re_sub_class class s) <= String.length s)%nat.
Proof. induction s as [|c s IH]; [done|]. simpl. destruct (class c); simpl; lia. Qed.

Lemma replace_empty_inv (old new s : string) :
  old <> "" -> new <> "" -> replace old new s = "" -> s = "".
Proof.
  intros Hold Hnew. destruct s as [|c s]; [done|].
  destruct (String.prefix old (String c s)) eqn:E.
  - rewrite replace_at by done. by destruct new.
  - by rewrite replace_skip.
Qed.

Lemma re_sub_class_empty_iff (class : ascii -> bool) (s : string) :
  re_sub_class class s = "" <-> forallb class s = true.
Proof.
  induction s as [|c s IH]; [done|]. simpl. destruct (class c); [done|]. by split.
Qed.

Lemma length_replace_strict (old new s : string) :
  old <> "" -> (String.length new < String.length old)%nat ->
  replace old new s <> s ->
  (String.length (replace old new s) < String.length s)%nat.
Proof.
  intros Hold Hlen Hne. rewrite replace_unfold in * by done.
  destruct (partition old s) as [[a b]|] eqn:P; [|done].
  apply partition_length in P. rewrite !str_length_app.
  pose proof (length_replace old new b Hold). lia.
Qed.

(** X1: the sanitized text holds none of the six reserved characters and
    no underscore. *)
Theorem sanitize_tag_alphabet (s : string) (c : ascii) :
  reserved c = true \/ c = "_"%char ->
  contains (String c "") (sanitize_tag s) = false.
Proof.
  intros [Hc| ->].
  - rewrite contains_char. apply negb_false_iff.
    eapply str_forallb_impl; [|apply sanitize_tag_no_reserved].
    intros x Hx. simpl in Hx. apply negb_true_iff. apply bool_decide_eq_false.
    intros <-. by rewrite Hc in Hx.
  - apply contains_char_false, sanitize_tag_no_underscore.
Qed.

(** X2: a character other than the reserved ones, the underscore, the
    hyphen and the space is in the sanitized text exactly when it is in
    the input; a comma, the separator of the pushed tags, is one. *)
Theorem sanitize_tag_kept_characters (s : string) (c : ascii) :
  reserved c = false -> c <> "_"%char -> c <> "-"%char -> c <> " "%char ->
  contains (String c "") (sanitize_tag s) = contains (String c "") s.
Proof.
  intros Hres Hu Hh Hs. rewrite !contains_char. f_equal. unfold sanitize_tag.
  rewrite !forallb_replace_inv; try done.
  - apply forallb_re_sub_class_inv. intros x Hx. apply negb_true_iff, bool_decide_eq_false.
    intros <-. congruence.
  - simpl. by rewrite bool_decide_eq_false_2.
  - simpl. by rewrite bool_decide_eq_false_2.
  - simpl. by rewrite !bool_decide_eq_false_2.
  - simpl. by rewrite bool_decide_eq_false_2.
Qed.

Lemma length_sanitize_tag (s : string) :
  (String.length (sanitize_tag s) <= String.length s)%nat.
Proof.
  unfold sanitize_tag.
  etrans; [apply length_replace; [done|simpl; lia]|].
  etrans; [apply length_replace; [done|simpl; lia]|].
  apply length_re_sub_class.
Qed.

(** X3: sanitizing never makes a text longer, and a text it changes by
    the hyphen rule alone gets strictly shorter. *)
Theorem sanitize_tag_never_longer (s : string) :
  (String.length (sanitize_tag s) <= String.length s)%nat
  /\ (sanitize_tag (sanitize_tag s) <> sanitize_tag s ->
      (String.length (sanitize_tag (sanitize_tag s)) < String.length (sanitize_tag s))%nat).
Proof.
  split; [apply length_sanitize_tag|]. rewrite sanitize_tag_again.
  intros Hne. apply length_replace_strict; [done|simpl; lia|done].
Qed.

(** X4: [sanitize_tag] returns its argument unchanged (and line 37 logs
    nothing) exactly when the text has no reserved character, no
    underscore and no hyphen directly after a space. *)
Theorem sanitize_tag_fixed_iff (s : string) :
  sanitize_tag s = s <->
  forallb (fun c => negb (reserved c)) s = true
  /\ contains "_" s = false /\ contains " -" s = false.
Proof.
  split.
  - intros H.
    assert (forallb (fun c => negb (reserved c)) s = true) as H1.
    { rewrite <- H. apply sanitize_tag_no_reserved. }
    assert (contains "_" s = false) as H2.
    { rewrite <- H. apply contains_char_false, sanitize_tag_no_underscore. }
    split; [done|]. split; [done|].
    unfold sanitize_tag in H.
    rewrite re_sub_class_id, (replace_absent "_") in H by done.
    by apply replace_fixed_iff in H; [|done|simpl; lia].
  - intros (H1 & H2 & H3). unfold sanitize_tag.
    rewrite re_sub_class_id by done. rewrite (replace_absent "_") by done.
    by rewrite replace_absent.
Qed.

(** X5: the sanitized text is empty exactly when every character of the
    input is reserved; the empty input is the first such case. *)
Theorem sanitize_tag_empty_iff (s : string) :
  sanitize_tag s = "" <-> forallb reserved s = true.
Proof.
  unfold sanitize_tag. split.
  - intros H. do 2 apply replace_empty_inv in H; [|done..].
    by apply re_sub_class_empty_iff.
  - intros H. apply re_sub_class_empty_iff in H. by rewrite H.
Qed.

Lemma iter_comm {A} (f : A -> A) (n : nat) (x : A) :
  Nat.iter n f (f x) = f (Nat.iter n f x).
Proof. induction n as [|n IH]; [done|]. simpl. by rewrite IH. Qed.

Lemma iter_shift {A} (f : A -> A) (n : nat) (x : A) :
  Nat.iter (S n) f x = Nat.iter n f (f x).
Proof. by rewrite iter_comm. Qed.

Lemma iter_fixed {A} (f : A -> A) (n : nat) (x : A) :
  f x = x -> Nat.iter n f x = x.
Proof. intros H. induction n as [|n IH]; [done|]. simpl. by rewrite IH. Qed.

Lemma sanitize_tag_settles_from (n : nat) (s : string) :
  (String.length (sanitize_tag s) <= n)%nat ->
  sanitize_tag (Nat.iter n sanitize_tag (sanitize_tag s))
  = Nat.iter n sanitize_tag (sanitize_tag s).
Proof.
  revert s. induction n as [|n IH]; intros s Hlen.
  - simpl. destruct (sanitize_tag s); [done|simpl in Hlen; lia].
  - destruct (decide (sanitize_tag (sanitize_tag s) = sanitize_tag s)) as [Hfix|Hne].
    + by rewrite iter_fixed.
    + rewrite iter_shift. apply IH. rewrite sanitize_tag_again in *.
      apply length_replace_strict in Hne; [lia|done|simpl; lia].
Qed.

(** X6: sanitizing over and over comes to rest: after one pass more than
    the text has characters, another pass changes nothing. *)
Theorem sanitize_tag_settles (s : string) :
  let n := S (String.length s) in
  sanitize_tag (Nat.iter n sanitize_tag s) = Nat.iter n sanitize_tag s.
Proof.
  cbn zeta. rewrite iter_shift.
  apply sanitize_tag_settles_from, length_sanitize_tag.
Qed.

End SanitizeMore.

Section ParseMore.
Import Py PyFacts.

Lemma rev_app_eq (a b : string) : String.rev_app a b = String.rev a +:+ b.
Proof.
  unfold String.rev. revert b. induction a as [|x a IH]; intros b; [done|].
  simpl. rewrite IH, (IH (String x "")). by rewrite <- str_app_assoc.
Qed.

Lemma rev_app_distr (a b : string) :
  String.rev (a +:+ b) = String.rev b +:+ String.rev a.
Proof.
  induction a as [|x a IH].
  - by rewrite str_app_nil_l, str_app_nil_r.
  - rewrite str_app_cons. unfold String.rev at 1 3. simpl.
    rewrite !rev_app_eq, IH. by rewrite <- str_app_assoc.
Qed.

Lemma lstrip_blanks (ws s : string) :
  forallb isspace ws = true -> lstrip (ws +:+ s) = lstrip s.
Proof.
  induction ws as [|c ws IH]; [done|]. cbn [forallb]. intros [Hc H]%andb_prop.
  rewrite str_app_cons. cbn [lstrip]. rewrite Hc. by apply IH.
Qed.

Lemma lstrip_solid (s t : string) :
  nonempty s = true -> forallb (fun c => negb (isspace c)) s = true ->
  lstrip (s +:+ t) = s +:+ t.
Proof.
  destruct s as [|c s]; [done|]. cbn [forallb]. intros _ [Hc _]%andb_prop.
  rewrite str_app_cons. cbn [lstrip]. apply negb_true_iff in Hc. by rewrite Hc.
Qed.

Lemma strip_blanks_around (ws1 s ws2 : string) :
  forallb isspace ws1 = true -> forallb isspace ws2 = true ->
  nonempty s = true -> forallb (fun c => negb (isspace c)) s = true ->
  strip (ws1 +:+ s +:+ ws2) = s.
Proof.
  intros H1 H2 Hne Hs. unfold strip, rstrip.
  rewrite lstrip_blanks, lstrip_solid by done.
  rewrite rev_app_distr, lstrip_blanks by (by rewrite str_forallb_rev).
  rewrite lstrip_id by (by rewrite str_forallb_rev). apply str_rev_involutive.
Qed.

Lemma blank_not_underscore (c : ascii) :
  isspace c = true -> negb (bool_decide ("_"%char = c)) = true.
Proof.
  intros H. apply negb_true_iff, bool_decide_eq_false. intros <-. done.
Qed.

Lemma decimal_not_underscore (c : ascii) :
  isdecimal_char c = true -> negb (bool_decide ("_"%char = c)) = true.
Proof.
  intros H. apply negb_true_iff, bool_decide_eq_false. intros <-. done.
Qed.

Lemma digit_not_space (c : ascii) :
  isdigit_char c = true -> negb (isspace c) = true.
Proof.
  unfold isdigit_char, isdecimal_char, isspace.
  rewrite !orb_true_iff, andb_true_iff, !Z.leb_le, !Z.eqb_eq. intros H.
  apply negb_true_iff.
  rewrite !orb_false_iff, !andb_false_iff, !Z.leb_gt, !Z.eqb_neq. lia.
Qed.

(** X7: blanks around the digits are stripped, and a second [pixiv_]
    ends the text that is parsed: whatever follows it is ignored.  The
    digits are at most 4300, the longest text [int] converts. *)
Theorem parse_pixiv_id_blanks_and_second_marker
    (pre ws1 digits ws2 tail : string) :
  contains "pixiv_" (pre +:+ "pixiv") = false ->
  forallb isspace ws1 = true -> forallb isspace ws2 = true ->
  nonempty digits = true -> forallb isdecimal_char digits = true ->
  (String.length digits <= 4300)%nat ->
  tail = "" \/ (exists more, tail = "pixiv_" +:+ more) ->
  parse_pixiv_id (pre +:+ "pixiv_" +:+ (ws1 +:+ digits +:+ ws2) +:+ tail)
  = Ret (int_go 0 digits).
Proof.
  intros Hpre H1 H2 Hne Hd Hlen Htail. unfold parse_pixiv_id.
  set (mid := ws1 +:+ digits +:+ ws2).
  assert (forallb (fun c => negb (bool_decide ("_"%char = c))) mid = true) as Hmid.
  { unfold mid. rewrite !str_forallb_app.
    rewrite (str_forallb_impl _ _ _ blank_not_underscore H1).
    rewrite (str_forallb_impl _ _ _ blank_not_underscore H2).
    by rewrite (str_forallb_impl _ _ _ decimal_not_underscore Hd). }
  assert (split "pixiv_" (pre +:+ "pixiv_" +:+ mid +:+ tail) !! 1%nat = Some mid) as ->.
  { transitivity ((pre :: split "pixiv_" (mid +:+ tail)) !! 1%nat).
    - f_equal. exact (split_first "pixiv" "_" pre (mid +:+ tail) Hpre).
    - cbn [lookup list_lookup]. destruct Htail as [->|[more ->]].
      + rewrite str_app_nil_r, split_absent; [done..|].
        by apply (contains_forallb (fun c => negb (bool_decide ("_"%char = c)))).
      + transitivity ((mid :: split "pixiv_" more) !! 0%nat); [|done]. f_equal.
        apply (split_first "pixiv" "_" mid more).
        apply (contains_forallb (fun c => negb (bool_decide ("_"%char = c)))); [|done].
        by rewrite str_forallb_app, Hmid. }
  unfold mid. rewrite strip_blanks_around; try done.
  2:{ eapply str_forallb_impl; [|exact Hd]. intros c Hc.
      apply digit_not_space. unfold isdigit_char. by rewrite Hc. }
  unfold isdigit, int, int_max_str_digits. rewrite Hne, Hd.
  apply Nat.leb_le in Hlen as ->.
  assert (forallb isdigit_char digits = true) as ->; [|done].
  eapply str_forallb_impl; [|exact Hd]. intros c Hc. unfold isdigit_char. by rewrite Hc.
Qed.

(** X8: a text that passes [isdigit] but holds a digit [int] does not
    read (a superscript two, say) gets past the guard of line 62 and
    raises [ValueError] at line 66. *)
Theorem parse_pixiv_id_superscript_digit (pre rest : string) :
  contains "pixiv_" (pre +:+ "pixiv") = false ->
  nonempty rest = true ->
  forallb isdigit_char rest = true ->
  forallb isdecimal_char rest = false ->
  parse_pixiv_id (pre +:+ "pixiv_" +:+ rest) = Raise ValueError.
Proof.
  intros Hpre Hne Hdigit Hdec. unfold parse_pixiv_id.
  assert (forallb (fun c => negb (bool_decide ("p"%char = c))) rest = true) as Hp.
  { eapply str_forallb_impl; [|exact Hdigit]. intros c Hc.
    apply negb_true_iff, bool_decide_eq_false. intros <-. done. }
  rewrite split_pixiv; [|done|by apply (contains_forallb _ _ _ Hp)].
  cbn [lookup list_lookup].
  rewrite strip_id by (eapply str_forallb_impl; [apply digit_not_space|done]).
  unfold isdigit, int. by rewrite Hne, Hdigit, Hdec.
Qed.

End ParseMore.

Lemma parse_pixiv_id_blanks_and_second_marker_witness :
  parse_pixiv_id "art pixiv_ 0042 pixiv_p0" = Ret 42.
Proof.
  apply (parse_pixiv_id_blanks_and_second_marker "art " " " "0042" " " "pixiv_p0");
    try reflexivity; [simpl; lia|].
  right. by exists "p0".
Defined.

Lemma parse_pixiv_id_superscript_digit_witness :
  parse_pixiv_id (String.append "pixiv_1" (String (ascii_of_nat 178) EmptyString))
  = Raise ValueError.
Proof.
  apply (parse_pixiv_id_superscript_digit "" (String "1" (String (ascii_of_nat 178) "")));
    reflexivity.
Defined.

Section RetryMore.

Variable lrr : LRRClient.
Variables arcid title tags summary : string.

Let update := Call (UpdateArchiveMetadata arcid title tags summary).
Let api (n : nat) := update_archive_metadata_api lrr n arcid title tags summary.
Let loop (fuel : nat) := retry_loop lrr fuel arcid title tags summary.

Lemma backoff_steps_S (from k : nat) :
  backoff_steps update from (S k)
  = [update; Sleep (2 ^ (Z.of_nat from + 1))] ++ backoff_steps update (S from) k.
Proof. reflexivity. Qed.

Lemma n_calls_backoff_steps (t : list Event) (from k : nat) :
  n_calls (t ++ backoff_steps update from k) = (n_calls t + k)%nat.
Proof.
  revert t from. induction k as [|k IH]; intros t from.
  - unfold backoff_steps. simpl. rewrite app_nil_r. lia.
  - rewrite backoff_steps_S, app_assoc, IH.
    rewrite (n_calls_turn arcid title tags summary). lia.
Qed.

Lemma attempts_backoff_steps (from k : nat) :
  attempts (backoff_steps update from k) = k.
Proof.
  revert from. induction k as [|k IH]; intros from; [done|].
  rewrite backoff_steps_S. unfold attempts in *.
  rewrite List.filter_app, length_app, IH. done.
Qed.

Lemma sleeps_backoff_steps (from k : nat) :
  sleeps (backoff_steps update from k)
  = (fun i => 2 ^ (Z.of_nat i + 1)) <$> seq from k.
Proof.
  revert from. induction k as [|k IH]; intros from; [done|].
  rewrite backoff_steps_S. unfold sleeps in *. rewrite omap_app, IH. done.
Qed.

Lemma retry_loop_transient (fuel : nat) (retry_count : Z) (t : list Event) :
  is_transient (api (n_calls t)) = true -> retry_count <= max_retries ->
  loop (S fuel) retry_count t =
  loop fuel (retry_count + 1) (t ++ [update; Sleep (2 ^ (retry_count + 1))]).
Proof.
  intros Htr Hr. unfold loop. rewrite retry_loop_turn. cbn zeta.
  assert ((retry_count >? max_retries) = false) as -> by lia.
  unfold api in Htr.
  destruct (update_archive_metadata_api lrr (n_calls t) arcid title tags summary)
    as [[err|]|e]; try done; cbn [is_transient] in Htr;
    rewrite Htr; by rewrite <- app_assoc.
Qed.

(** [k] transient failures in a row are [k] turns of the loop. *)
Lemma retry_loop_transient_run (k fuel rc : nat) (t : list Event) :
  (rc + k <= 4)%nat ->
  (forall i, (i < k)%nat -> is_transient (api (n_calls t + i)) = true) ->
  loop (k + fuel) (Z.of_nat rc) t
  = loop fuel (Z.of_nat (rc + k)) (t ++ backoff_steps update rc k).
Proof.
  revert rc t. induction k as [|k IH]; intros rc t Hk Htr.
  - unfold backoff_steps. simpl. by rewrite app_nil_r, Nat.add_0_r.
  - cbn [Nat.add]. rewrite retry_loop_transient.
    + replace (Z.of_nat rc + 1) with (Z.of_nat (S rc)) by lia.
      rewrite IH.
      * rewrite backoff_steps_S, <- app_assoc. do 2 f_equal; [lia|].
        do 4 f_equal. lia.
      * lia.
      * intros i Hi. rewrite (n_calls_turn arcid title tags summary).
        replace (S (n_calls t) + i)%nat with (n_calls t + S i)%nat by lia.
        apply Htr. lia.
    + rewrite <- (Nat.add_0_r (n_calls t)). apply Htr. lia.
    + unfold max_retries. lia.
Qed.

(** X9: locks and network failures share one retry count: after [k] of
    them in any mix, [k] at most 4, a success ends the loop with [k + 1]
    update calls and the sleeps 2, 4, ... between them. *)
Theorem retry_loop_transient_then_success (k : nat) (t : list Event) :
  (k <= 4)%nat ->
  (forall i, (i < k)%nat -> is_transient (api (n_calls t + i)) = true) ->
  api (n_calls t + k) = Replied None ->
  retry_loop lrr (Z.to_nat (max_retries + 2 - 0)) arcid title tags summary 0 t
  = (Ret tt, t ++ schedule update k)
  /\ attempts (schedule update k) = S k
  /\ sleeps (schedule update k) = (fun i => 2 ^ (Z.of_nat i + 1)) <$> seq 0 k.
Proof.
  intros Hk Htr Hok. split; [|split].
  - change (Z.to_nat (max_retries + 2 - 0)) with 5%nat.
    replace 5%nat with (k + S (4 - k))%nat by lia.
    pose proof (retry_loop_transient_run k (S (4 - k)) 0 t) as Hrun.
    change (Z.of_nat 0) with 0 in Hrun. change (0 + k)%nat with k in Hrun.
    unfold loop in Hrun. rewrite Hrun by (done || lia).
    rewrite retry_loop_turn. cbn zeta.
    rewrite n_calls_backoff_steps. unfold api in Hok. rewrite Hok.
    unfold schedule. by rewrite app_assoc.
  - unfold schedule, attempts. rewrite List.filter_app, length_app.
    fold (attempts (backoff_steps update 0 k)). rewrite attempts_backoff_steps.
    simpl. lia.
  - unfold schedule, sleeps. rewrite omap_app. fold (sleeps (backoff_steps update 0 k)).
    rewrite sleeps_backoff_steps. simpl. by rewrite app_nil_r.
Qed.

(** X10: when the fifth update call in a row fails and raises, the loop
    raises that very exception, after five calls and four sleeps. *)
Theorem retry_loop_network_exhausted (t : list Event) (e : PyExn) :
  (forall i, (i < 4)%nat -> is_transient (api (n_calls t + i)) = true) ->
  api (n_calls t + 4) = Raised e ->
  retry_loop lrr (Z.to_nat (max_retries + 2 - 0)) arcid title tags summary 0 t
  = (Raise e, t ++ schedule update 4).
Proof.
  intros Htr He.
  change (Z.to_nat (max_retries + 2 - 0)) with (4 + 1)%nat.
  pose proof (retry_loop_transient_run 4 1 0 t) as Hrun.
  change (Z.of_nat 0) with 0 in Hrun. change (Z.of_nat (0 + 4)) with 4 in Hrun.
  unfold loop in Hrun. rewrite Hrun by (done || lia).
  rewrite retry_loop_turn. cbn zeta.
  rewrite n_calls_backoff_steps. unfold api in He. rewrite He.
  unfold schedule. rewrite app_assoc. by destruct (transient_network e).
Qed.

(** X11: an exception of the update call whose class is neither one of
    the three that the [except] clause names nor a subclass of one of
    them leaves the loop at once, at any retry count: one call, no
    sleep. *)
Theorem retry_loop_other_exception (fuel : nat) (retry_count : Z) (t : list Event)
    (e : PyExn) :
  update_archive_metadata_api lrr (n_calls t) arcid title tags summary = Raised e ->
  transient_network e = false ->
  retry_loop lrr (S fuel) arcid title tags summary retry_count t
  = (Raise e, t ++ [Call (UpdateArchiveMetadata arcid title tags summary)]).
Proof.
  intros He Hn. rewrite retry_loop_turn. cbn zeta. by rewrite He, Hn.
Qed.

Lemma retry_loop_shape_from (fuel rc : nat) (t : list Event) :
  (fuel + rc = 5)%nat -> (1 <= fuel)%nat ->
  exists k o,
    (rc + k <= 4)%nat
    /\ loop fuel (Z.of_nat rc) t = (o, t ++ backoff_steps update rc k ++ [update])
    /\ o <> OutOfFuel.
Proof.
  revert rc t. induction fuel as [|fuel IH]; intros rc t Hsum Hfuel; [lia|].
  assert (forall o : outcome unit, o <> OutOfFuel ->
            exists k o', (rc + k <= 4)%nat
              /\ (o, t ++ [update]) = (o', t ++ backoff_steps update rc k ++ [update])
              /\ o' <> OutOfFuel) as Hstop.
  { intros o Ho. exists 0%nat, o. split; [lia|]. done. }
  assert ((Z.of_nat rc >? max_retries) = false ->
          exists k o, (rc + k <= 4)%nat
            /\ loop fuel (Z.of_nat rc + 1) ((t ++ [update]) ++ [Sleep (2 ^ (Z.of_nat rc + 1))])
               = (o, t ++ backoff_steps update rc k ++ [update])
            /\ o <> OutOfFuel) as Hnext.
  { intros Hrc. unfold max_retries in Hrc.
    destruct (IH (S rc) ((t ++ [update]) ++ [Sleep (2 ^ (Z.of_nat rc + 1))]))
      as (k & o & Hk & Hrun & Ho); [lia..|].
    exists (S k), o. split; [lia|]. split; [|done].
    replace (Z.of_nat (S rc)) with (Z.of_nat rc + 1) in Hrun by lia.
    rewrite Hrun, backoff_steps_S, <- !app_assoc. done. }
  unfold loop at 1. rewrite retry_loop_turn. cbn zeta. fold update loop.
  destruct (update_archive_metadata_api lrr (n_calls t) arcid title tags summary)
    as [[err|]|e].
  - destruct (status err =? 423); [|by apply Hstop].
    destruct (Z.of_nat rc >? max_retries) eqn:E; [by apply Hstop|by apply Hnext].
  - by apply Hstop.
  - destruct (transient_network e); [|by apply Hstop].
    destruct (Z.of_nat rc >? max_retries) eqn:E; [by apply Hstop|by apply Hnext].
Qed.

Lemma retry_loop_any_server (t : list Event) :
  exists k o,
    (k <= 4)%nat
    /\ retry_loop lrr (Z.to_nat (max_retries + 2 - 0)) arcid title tags summary 0 t
       = (o, t ++ schedule update k)
    /\ o <> OutOfFuel.
Proof.
  destruct (retry_loop_shape_from 5 0 t) as (k & o & Hk & Hrun & Ho); [lia..|].
  exists k, o. split; [lia|]. by split.
Qed.

(** X12: whatever the server replies, the loop ends after at most five
    update calls, all with the same request, with the sleeps 2, 4, 8, 16
    (or a first part of them) between the calls and none after the last. *)
Theorem retry_loop_shape (t : list Event) :
  exists k o,
    (k <= 4)%nat
    /\ retry_loop lrr (Z.to_nat (max_retries + 2 - 0)) arcid title tags summary 0 t
       = (o, t ++ schedule update k)
    /\ o <> OutOfFuel
    /\ attempts (schedule update k) = S k
    /\ sleeps (schedule update k) = take k [2; 4; 8; 16].
Proof.
  destruct (retry_loop_shape_from 5 0 t) as (k & o & Hk & Hrun & Ho); [lia..|].
  exists k, o. split; [lia|]. split; [exact Hrun|]. split; [done|].
  unfold schedule, attempts, sleeps. rewrite List.filter_app, length_app, omap_app.
  fold (attempts (backoff_steps update 0 k)) (sleeps (backoff_steps update 0 k)).
  rewrite attempts_backoff_steps, sleeps_backoff_steps. split; [simpl; lia|].
  simpl. rewrite app_nil_r.
  do 5 (destruct k as [|k]; [done|]). lia.
Qed.

End RetryMore.

Section UpdateMore.

Variable set_iter : list string -> list string.
Variable lrr : LRRClient.
Variable db : Database.

Abbreviation uam := (update_archive_metadata set_iter lrr db).
Abbreviation get arcid := (Call (GetArchiveMetadata arcid)).

(** The loop returns only after an update call that the server answered
    without error. *)
Lemma retry_loop_ret_inv (fuel : nat) (arcid title tags summary : string)
    (retry_count : Z) (t t' : list Event) :
  retry_loop lrr fuel arcid title tags summary retry_count t = (Ret tt, t') ->
  exists before,
    t' = before ++ [Call (UpdateArchiveMetadata arcid title tags summary)]
    /\ update_archive_metadata_api lrr (n_calls before) arcid title tags summary
       = Replied None.
Proof.
  revert retry_count t. induction fuel as [|fuel IH]; intros rc t; [done|].
  rewrite retry_loop_turn. cbn zeta.
  destruct (update_archive_metadata_api lrr (n_calls t) arcid title tags summary)
    as [[err|]|e] eqn:E.
  - destruct (status err =? 423); [|done]. destruct (rc >? max_retries); [done|]. apply IH.
  - intros [= <-]. eauto.
  - destruct (transient_network e); [|done]. destruct (rc >? max_retries); [done|]. apply IH.
Qed.

(** The shape of every run of [update_archive_metadata]. *)
Lemma uam_events (arcid : string) (t : list Event) :
  exists o new,
    uam arcid t = (o, t ++ get arcid :: new)
    /\ o <> OutOfFuel
    /\ (new = []
        \/ exists title pushed summary k,
             (k <= 4)%nat
             /\ new = schedule (Call (UpdateArchiveMetadata arcid title pushed summary)) k).
Proof.
  assert (forall o : outcome TaskResult, o <> OutOfFuel ->
            exists o' new, (o, t ++ [get arcid]) = (o', t ++ get arcid :: new)
              /\ o' <> OutOfFuel
              /\ (new = [] \/ exists title pushed summary k, (k <= 4)%nat
                    /\ new = schedule (Call (UpdateArchiveMetadata arcid title pushed summary)) k))
    as Hstop.
  { intros o Ho. exists o, []. eauto. }
  unfold update_archive_metadata, bind at 1, remote at 1.
  destruct (get_archive_metadata lrr (n_calls t) arcid) as [err|response];
    [by apply Hstop|].
  unfold bind at 1, lift.
  destruct (parse_pixiv_id (filename response)) as [pixiv_id|e|] eqn:Hp;
    [|by apply Hstop|].
  2:{ exfalso. unfold parse_pixiv_id in Hp.
      destruct (Py.split "pixiv_" (filename response) !! 1%nat); [|done].
      destruct (negb (Py.isdigit (Py.strip s))); [done|].
      by destruct (Py.int (Py.strip s)). }
  unfold bind at 1, lift, bind_parameter.
  destruct (sqlite_integer pixiv_id); [|by apply Hstop].
  destruct (fetchone (select_master_image db pixiv_id))
    as [[[[image_id member_id] title] caption]|]; [|by apply Hstop].
  destruct (fetchone (select_member_name db member_id)) as [member_name|];
    [|by apply Hstop].
  unfold bind.
  match goal with
  | |- context [retry_loop lrr ?f arcid title ?tg caption 0 ?tr] =>
      destruct (retry_loop_any_server lrr arcid title tg caption tr) as (k & o & Hk & Hrun & Ho);
      rewrite Hrun
  end.
  destruct o as [[]|e|]; [| |done]; rewrite <- app_assoc;
    (do 2 eexists; split; [reflexivity|]; split; [done|]; right; eauto 10).
Qed.

Lemma uam_success_inv (arcid : string) (t t' : list Event) :
  uam arcid t = (Ret SUCCESS, t') ->
  exists title pushed summary before,
    t' = before ++ [Call (UpdateArchiveMetadata arcid title pushed summary)]
    /\ update_archive_metadata_api lrr (n_calls before) arcid title pushed summary
       = Replied None.
Proof.
  unfold update_archive_metadata, bind at 1, remote at 1.
  destruct (get_archive_metadata lrr (n_calls t) arcid) as [err|response]; [done|].
  unfold bind at 1, lift.
  destruct (parse_pixiv_id (filename response)) as [pixiv_id|e|]; [|done..].
  unfold bind at 1, lift, bind_parameter.
  destruct (sqlite_integer pixiv_id); [|done].
  destruct (fetchone (select_master_image db pixiv_id))
    as [[[[image_id member_id] title] caption]|]; [|done].
  destruct (fetchone (select_member_name db member_id)) as [member_name|]; [|done].
  unfold bind.
  match goal with
  | |- context [retry_loop lrr ?f arcid title ?tg caption 0 ?tr] =>
      destruct (retry_loop lrr f arcid title tg caption 0 tr) as [[[]|e|] t1] eqn:Hrun
  end; try done.
  intros [= <-]. apply retry_loop_ret_inv in Hrun as (before & -> & Hok). eauto 10.
Qed.

Lemma uam_skip_inv (arcid : string) (t t' : list Event) :
  uam arcid t = (Ret PIXIVUTIL_NO_METADATA, t') ->
  t' = t ++ [get arcid]
  /\ exists response pixiv_id,
       get_archive_metadata lrr (n_calls t) arcid = inr response
       /\ parse_pixiv_id (filename response) = Ret pixiv_id
       /\ fetchone (select_master_image db pixiv_id) = None.
Proof.
  unfold update_archive_metadata, bind at 1, remote at 1.
  destruct (get_archive_metadata lrr (n_calls t) arcid) as [err|response] eqn:H1; [done|].
  unfold bind at 1, lift.
  destruct (parse_pixiv_id (filename response)) as [pixiv_id|e|] eqn:H2; [|done..].
  unfold bind at 1, lift, bind_parameter.
  destruct (sqlite_integer pixiv_id); [|done].
  destruct (fetchone (select_master_image db pixiv_id))
    as [[[[image_id member_id] title] caption]|] eqn:H3.
  - destruct (fetchone (select_member_name db member_id)) as [member_name|]; [|done].
    unfold bind.
    match goal with
    | |- context [retry_loop lrr ?f arcid title ?tg caption 0 ?tr] =>
        destruct (retry_loop lrr f arcid title tg caption 0 tr) as [[[]|e|] t1]
    end; done.
  - intros [= <-]. eauto 10.
Qed.

(** X13: every call of [update_archive_metadata] reads the metadata of its
    archive once and first; after that it does nothing more, or makes up
    to five update calls for that same archive with one and the same
    title, tags and summary. *)
Theorem update_archive_metadata_events (arcid : string) (t : list Event) :
  exists o new,
    uam arcid t = (o, t ++ get arcid :: new)
    /\ o <> OutOfFuel
    /\ (new = []
        \/ exists title pushed summary k,
             (k <= 4)%nat
             /\ new = schedule (Call (UpdateArchiveMetadata arcid title pushed summary)) k).
Proof. apply uam_events. Qed.

(** X14: [SUCCESS] is returned only after an update call for the archive
    that the server answered without error, and that call is the last
    event. *)
Theorem update_archive_metadata_success_inv (arcid : string) (t t' : list Event) :
  uam arcid t = (Ret SUCCESS, t') ->
  exists title pushed summary before,
    t' = before ++ [Call (UpdateArchiveMetadata arcid title pushed summary)]
    /\ update_archive_metadata_api lrr (n_calls before) arcid title pushed summary
       = Replied None.
Proof. apply uam_success_inv. Qed.

(** X15: [PIXIVUTIL_NO_METADATA] is returned only when the file name
    parsed and no image row matched, and the metadata read is then the
    only event: a skipped archive is never written. *)
Theorem update_archive_metadata_skip_inv (arcid : string) (t t' : list Event) :
  uam arcid t = (Ret PIXIVUTIL_NO_METADATA, t') ->
  t' = t ++ [get arcid]
  /\ exists response pixiv_id,
       get_archive_metadata lrr (n_calls t) arcid = inr response
       /\ parse_pixiv_id (filename response) = Ret pixiv_id
       /\ fetchone (select_master_image db pixiv_id) = None.
Proof. apply uam_skip_inv. Qed.

(** X16: when the metadata read of an archive returns an error, the
    exception of line 57 is raised with that read as the only event, and
    the loop over the archives ends with it. *)
Theorem metadata_read_failure_aborts (arcid : string) (arcids : list string)
    (result_mapping : gmap string (list string)) (t : list Event) (err : LRRError) :
  get_archive_metadata lrr (n_calls t) arcid = inl err ->
  let fatal := Exception ("Failed to get archive metadata: " +:+ error err) in
  uam arcid t = (Raise fatal, t ++ [get arcid])
  /\ for_arcids set_iter lrr db (arcid :: arcids) result_mapping t
     = (Raise fatal, t ++ [get arcid]).
Proof.
  intros H1 fatal.
  assert (uam arcid t = (Raise fatal, t ++ [get arcid])) as Hraise.
  { unfold update_archive_metadata, bind, remote. by rewrite H1. }
  split; [done|]. by rewrite for_arcids_cons, Hraise.
Qed.

End UpdateMore.

Section SplitJoin.
Import Py PyFacts.

Lemma split_char_whole (c : ascii) (s : string) :
  contains (String c "") s = false -> split (String c "") s = [s].
Proof. by apply split_absent. Qed.

Lemma split_char_pieces (c : ascii) (s : string) :
  Forall (fun y => contains (String c "") y = false) (split (String c "") s).
Proof.
  induction s as [|x s IH].
  - rewrite split_absent by done. by constructor.
  - destruct (decide (c = x)) as [<-|Hne].
    + rewrite split_at by (done || by rewrite prefix_char, bool_decide_eq_true_2).
      constructor; [done|]. done.
    + rewrite split_skip by (done || by rewrite prefix_char, bool_decide_eq_false_2).
      pose proof (split_not_nil (String c "") s) as Hnil.
      destruct (split (String c "") s) as [|h tl]; [by destruct Hnil|].
      apply Forall_cons in IH as [Hh Htl]. constructor; [|done]. cbn [hd].
      unfold contains in *. rewrite partition_eq, prefix_char, bool_decide_eq_false_2 by done.
      by destruct (partition (String c "") h) as [[a b]|].
Qed.

Lemma contains_char_lstrip (c : ascii) (s : string) :
  contains (String c "") s = false -> contains (String c "") (lstrip s) = false.
Proof.
  induction s as [|x s IH]; [done|]. intros H. cbn [lstrip].
  destruct (isspace x); [|done]. apply IH.
  unfold contains in *. rewrite partition_eq in H.
  destruct (String.prefix (String c "") (String x s)); [done|].
  by destruct (partition (String c "") s) as [[a b]|].
Qed.

End SplitJoin.

Section StripMore.
Import Py PyFacts.

Lemma contains_char_strip (c : ascii) (s : string) :
  contains (String c "") s = false -> contains (String c "") (strip s) = false.
Proof.
  intros H. unfold strip, rstrip. rewrite contains_char, str_forallb_rev.
  rewrite <- contains_char. apply contains_char_lstrip.
  rewrite contains_char, str_forallb_rev, <- contains_char.
  by apply contains_char_lstrip.
Qed.

End StripMore.

Section RunMore.

Variable set_iter : list string -> list string.
Variable lrr : LRRClient.
Variable db : Database.

Abbreviation uam := (update_archive_metadata set_iter lrr db).
Abbreviation get arcid := (Call (GetArchiveMetadata arcid)).

(** X17: every trimmed entry of the archive's current tags is an entry
    of the tags text that is pushed: a [date_added] tag of the server
    survives the update. *)
Theorem existing_tags_are_kept (arcid : string) (t : list Event)
    (response : ArchiveMetadata) (pixiv_id image_id member_id : Z)
    (title caption member_name : string) :
  iterates_set set_iter ->
  get_archive_metadata lrr (n_calls t) arcid = inr response ->
  parse_pixiv_id (filename response) = Ret pixiv_id ->
  fetchone (select_master_image db pixiv_id) = Some (image_id, member_id, title, caption) ->
  fetchone (select_member_name db member_id) = Some member_name ->
  exists pushed o t',
    uam arcid t
    = (o, t ++ [get arcid; Call (UpdateArchiveMetadata arcid title pushed caption)] ++ t')
    /\ forall x, x ∈ Py.strip <$> Py.split "," (tags response) ->
                 x ∈ Py.split "," pushed.
Proof.
  intros Hset H1 H2 H3 H4.
  destruct (uam_resolved set_iter lrr db arcid t response pixiv_id image_id member_id
              title caption member_name H1 H2 H3 H4) as (tag_list & Hrun & Hmem).
  destruct (Hset tag_list) as [_ Hiter].
  destruct (retry_loop_first_call lrr 4 arcid title (Py.join "," (set_iter tag_list))
              caption 0 (t ++ [get arcid])) as (o & t' & Hloop).
  change (Z.to_nat (max_retries + 2 - 0)) with 5%nat in Hrun.
  unfold bind in Hrun. rewrite Hloop in Hrun. rewrite <- app_assoc in Hrun.
  assert (forall x, x ∈ Py.strip <$> Py.split "," (tags response) ->
                    x ∈ Py.split "," (Py.join "," (set_iter tag_list))) as Hkept.
  { intros x Hx.
    assert (x ∈ set_iter tag_list) as Hin by (apply Hiter, Hmem; by left).
    rewrite PyFacts.split_join_char by (intros Hnil; rewrite Hnil in Hin; by apply elem_of_nil in Hin).
    apply list_elem_of_bind. exists x. split; [|done].
    apply list_elem_of_fmap in Hx as (piece & -> & Hpiece).
    rewrite split_char_whole; [by left|]. apply contains_char_strip.
    pose proof (split_char_pieces "," (tags response)) as Hp.
    rewrite Forall_forall in Hp. by apply Hp. }
  exists (Py.join "," (set_iter tag_list)).
  destruct o as [[]| |]; (eexists _, t'; split; [exact Hrun|done]).
Qed.

(** ** The ledger *)

Lemma bucket_record_result (key arcid k : string) (m : gmap string (list string)) :
  bucket (record_result key arcid m) k
  = if decide (key = k) then bucket m k ++ [arcid] else bucket m k.
Proof.
  unfold bucket, record_result. destruct (decide (key = k)) as [->|Hne].
  - rewrite lookup_alter_eq. destruct (m !! k) as [b|] eqn:E.
    + by rewrite E.
    + by rewrite lookup_insert_eq.
  - rewrite lookup_alter_ne by done.
    destruct (m !! key); [done|]. by rewrite lookup_insert_ne.
Qed.

Lemma record_result_keys (key arcid k : string) (m : gmap string (list string)) :
  is_Some (record_result key arcid m !! k) -> k = key \/ is_Some (m !! k).
Proof.
  unfold record_result. destruct (decide (key = k)) as [->|Hne]; [by left|].
  rewrite lookup_alter_ne by done. right.
  destruct (m !! key); [done|]. by rewrite lookup_insert_ne in H.
Qed.

Lemma record_result_no_empty (key arcid k : string) (m : gmap string (list string)) :
  record_result key arcid m !! k = Some [] -> m !! k = Some [].
Proof.
  unfold record_result. destruct (decide (key = k)) as [->|Hne].
  - rewrite lookup_alter_eq. destruct (m !! k) as [b|] eqn:E.
    + rewrite E. simpl. intros [= H]. by destruct b.
    + rewrite lookup_insert_eq. done.
  - rewrite lookup_alter_ne by done.
    destruct (m !! key); [done|]. by rewrite lookup_insert_ne.
Qed.

Lemma for_arcids_ledger (arcids : list string) (m m' : gmap string (list string))
    (t t' : list Event) :
  for_arcids set_iter lrr db arcids m t = (Ret m', t') ->
  (forall k, is_Some (m' !! k) ->
             is_Some (m !! k) \/ k = "SUCCESS" \/ k = "PIXIVUTIL_NO_METADATA")
  /\ (forall k, m' !! k = Some [] -> m !! k = Some [])
  /\ exists done_ skipped,
       bucket m' "SUCCESS" = bucket m "SUCCESS" ++ done_
       /\ bucket m' "PIXIVUTIL_NO_METADATA" = bucket m "PIXIVUTIL_NO_METADATA" ++ skipped
       /\ done_ ++ skipped ≡ₚ arcids
       /\ done_ `sublist_of` arcids /\ skipped `sublist_of` arcids.
Proof.
  revert m t. induction arcids as [|arcid arcids IH]; intros m t.
  - intros [= <- <-]. split; [eauto|]. split; [done|].
    exists [], []. by rewrite !app_nil_r.
  - rewrite for_arcids_cons. destruct (uam arcid t) as [[result| |] t1]; try done.
    intros Hrun. destruct (IH _ _ Hrun) as (Hkeys & Hempty & done_ & skipped & HS & HN & Hperm & Hsub1 & Hsub2).
    split; [|split].
    + intros k Hk. destruct (Hkeys k Hk) as [Hk1|Hk1]; [|by right].
      apply record_result_keys in Hk1 as [->|Hk1]; [|by left].
      right. by destruct result; [left|right].
    + intros k Hk. by eapply record_result_no_empty, Hempty.
    + rewrite !bucket_record_result in HS, HN. destruct result; simpl in HS, HN.
      * exists (arcid :: done_), skipped. rewrite HS, HN, <- app_assoc.
        split; [done|]. split; [done|]. split; [simpl; by f_equiv|].
        split; [by apply sublist_skip|by apply sublist_cons].
      * exists done_, (arcid :: skipped). rewrite HS, HN, <- app_assoc.
        split; [done|]. split; [done|]. split.
        { rewrite <- Permutation_middle. by f_equiv. }
        split; [by apply sublist_cons|by apply sublist_skip].
Qed.

Lemma update_lrr_metadata_ret_inv (t t' : list Event) (m : gmap string (list string)) :
  update_lrr_metadata set_iter lrr db t = (Ret m, t') ->
  get_shinobu_status lrr (n_calls t) = None
  /\ Forall (fun tb_name => fetchone (select_table db tb_name) <> None) required_tables
  /\ exists arcids,
       get_untagged_archives lrr (S (n_calls t)) = inr arcids
       /\ for_arcids set_iter lrr db arcids ∅
            (t ++ [Call GetShinobuStatus; Call GetUntaggedArchives]) = (Ret m, t').
Proof.
  unfold update_lrr_metadata, bind at 1, remote at 1.
  destruct (get_shinobu_status lrr (n_calls t)) as [err|] eqn:Hs; [done|].
  unfold bind at 1.
  destruct (decide (Forall (fun tb_name => fetchone (select_table db tb_name) <> None)
                      required_tables)) as [Htb|Htb].
  - rewrite for_required_tables_present by done. unfold bind, remote.
    rewrite n_calls_call.
    destruct (get_untagged_archives lrr (S (n_calls t))) as [err|arcids] eqn:Hun; [done|].
    rewrite <- app_assoc. intros Hrun. split; [done|]. split; [done|]. eauto.
  - apply not_Forall_Exists in Htb; [|apply _]. apply Exists_exists in Htb as (tb & Hin & Hnone).
    destruct (for_required_tables_missing db required_tables (t ++ [Call GetShinobuStatus]))
      as [e He].
    { exists tb. split; [done|]. simpl in Hnone.
      destruct (fetchone (select_table db tb)); [|done]. by destruct Hnone. }
    by rewrite He.
Qed.

End RunMore.

Lemma reads_backoff_steps (arcid title tags summary : string) (from k : nat) :
  reads (backoff_steps (Call (UpdateArchiveMetadata arcid title tags summary)) from k) = [].
Proof.
  revert from. induction k as [|k IH]; intros from; [done|].
  rewrite backoff_steps_S. unfold reads in *. by rewrite omap_app, IH.
Qed.

Lemma writes_backoff_steps (arcid title tags summary : string) (from k : nat) :
  writes (backoff_steps (Call (UpdateArchiveMetadata arcid title tags summary)) from k)
  = replicate k arcid.
Proof.
  revert from. induction k as [|k IH]; intros from; [done|].
  rewrite backoff_steps_S. unfold writes in *. by rewrite omap_app, IH.
Qed.

Lemma reads_schedule (arcid title tags summary : string) (k : nat) :
  reads (schedule (Call (UpdateArchiveMetadata arcid title tags summary)) k) = [].
Proof.
  unfold schedule, reads. rewrite omap_app.
  fold (reads (backoff_steps (Call (UpdateArchiveMetadata arcid title tags summary)) 0 k)).
  by rewrite reads_backoff_steps.
Qed.

Lemma writes_schedule (arcid title tags summary : string) (k : nat) :
  writes (schedule (Call (UpdateArchiveMetadata arcid title tags summary)) k)
  = replicate (S k) arcid.
Proof.
  unfold schedule, writes. rewrite omap_app.
  fold (writes (backoff_steps (Call (UpdateArchiveMetadata arcid title tags summary)) 0 k)).
  rewrite writes_backoff_steps. simpl.
  change [arcid] with (replicate 1 arcid). rewrite <- replicate_add.
  by replace (k + 1)%nat with (S k) by lia.
Qed.

Section LedgerMore.

Variable set_iter : list string -> list string.
Variable lrr : LRRClient.
Variable db : Database.

Abbreviation uam := (update_archive_metadata set_iter lrr db).
Abbreviation get arcid := (Call (GetArchiveMetadata arcid)).

(** One archive: one metadata read, then update calls for that archive
    only, some when the result is SUCCESS and none when it is a skip. *)
Lemma uam_trace (arcid : string) (t t' : list Event) (o : outcome TaskResult) :
  uam arcid t = (o, t') ->
  exists new,
    t' = t ++ get arcid :: new
    /\ reads new = []
    /\ (forall x, x ∈ writes new -> x = arcid)
    /\ (o = Ret SUCCESS -> arcid ∈ writes new)
    /\ (o = Ret PIXIVUTIL_NO_METADATA -> writes new = []).
Proof.
  intros Hrun.
  destruct (uam_events set_iter lrr db arcid t)
    as (o' & new & Hshape & _ & Hnew).
  rewrite Hrun in Hshape. injection Hshape as <- ->.
  exists new. split; [done|].
  destruct Hnew as [->|(title & pushed & summary & k & Hk & ->)].
  - split; [done|]. split; [by intros x ?%elem_of_nil|]. split; [|done].
    intros ->. apply uam_success_inv in Hrun
      as (ti & pu & su & before & Hlast & _).
    exfalso. change (t ++ [get arcid] = before ++ [Call (UpdateArchiveMetadata arcid ti pu su)])
      in Hlast.
    by apply app_inj_tail in Hlast as [_ ?].
  - rewrite reads_schedule, writes_schedule. split; [done|]. split.
    + by intros x [-> _]%elem_of_replicate.
    + split; [intros _; by left|].
      intros ->. apply uam_skip_inv in Hrun as [Hlast _].
      exfalso. change (t ++ get arcid :: schedule
                         (Call (UpdateArchiveMetadata arcid title pushed summary)) k
                       = t ++ [get arcid]) in Hlast.
      apply app_inv_head in Hlast. injection Hlast as Hlast.
      unfold schedule in Hlast. by destruct (backoff_steps _ 0 k).
Qed.

Lemma for_arcids_reads (arcids : list string)
    (result_mapping : gmap string (list string)) (t t' : list Event)
    (o : outcome (gmap string (list string))) :
  for_arcids set_iter lrr db arcids result_mapping t = (o, t') ->
  exists new,
    t' = t ++ new
    /\ reads new `prefix_of` arcids
    /\ (forall final, o = Ret final -> reads new = arcids)
    /\ (forall x, x ∈ writes new -> x ∈ reads new).
Proof.
  revert result_mapping t. induction arcids as [|arcid arcids IH]; intros m t.
  - intros [= <- <-]. exists []. rewrite app_nil_r. split; [done|]. split; [done|].
    split; [done|]. by intros x ?%elem_of_nil.
  - rewrite for_arcids_cons. destruct (uam arcid t) as [r t1] eqn:Hone.
    destruct (uam_trace arcid t t1 r Hone) as (new1 & -> & Hr1 & Hw1 & _).
    assert (reads (get arcid :: new1) = [arcid]) as Hreads1.
    { change (reads (get arcid :: new1)) with (arcid :: reads new1). by rewrite Hr1. }
    assert (forall x, x ∈ writes (get arcid :: new1) -> x = arcid) as Hwrites1.
    { intros x Hx. by apply Hw1. }
    destruct r as [result|e|].
    + intros Hrest. destruct (IH _ _ Hrest) as (new2 & -> & Hpre & Hall & Hw2).
      exists ((get arcid :: new1) ++ new2). rewrite <- app_assoc. split; [done|].
      unfold reads, writes in *. rewrite !omap_app, Hreads1. split; [|split].
      * by apply prefix_cons.
      * intros final Hfinal. simpl. f_equal. by eapply Hall.
      * intros x [Hx|Hx]%elem_of_app.
        -- rewrite (Hwrites1 x Hx). by left.
        -- right. by apply Hw2.
    + intros [= <- <-]. exists (get arcid :: new1). split; [done|]. rewrite Hreads1.
      split; [by apply prefix_cons, prefix_nil|]. split; [done|].
      intros x Hx. rewrite (Hwrites1 x Hx). by left.
    + intros [= <- <-]. exists (get arcid :: new1). split; [done|]. rewrite Hreads1.
      split; [by apply prefix_cons, prefix_nil|]. split; [done|].
      intros x Hx. rewrite (Hwrites1 x Hx). by left.
Qed.

(** X18: the loop reads the archives in the listed order, each once: the
    reads of a run that raises are a first part of the list, the reads
    of a run that completes are the whole list; and only archives that
    were read are written. *)
Theorem for_arcids_reads_in_order (arcids : list string)
    (result_mapping : gmap string (list string)) (t t' : list Event)
    (o : outcome (gmap string (list string))) :
  for_arcids set_iter lrr db arcids result_mapping t = (o, t') ->
  exists new,
    t' = t ++ new
    /\ reads new `prefix_of` arcids
    /\ (forall final, o = Ret final -> reads new = arcids)
    /\ (forall x, x ∈ writes new -> x ∈ reads new).
Proof. apply for_arcids_reads. Qed.

Lemma for_arcids_written (arcids : list string) (m m' : gmap string (list string))
    (t t' : list Event) :
  for_arcids set_iter lrr db arcids m t = (Ret m', t') ->
  exists new done_,
    t' = t ++ new
    /\ bucket m' "SUCCESS" = bucket m "SUCCESS" ++ done_
    /\ forall x, x ∈ writes new <-> x ∈ done_.
Proof.
  revert m t. induction arcids as [|arcid arcids IH]; intros m t.
  - intros [= <- <-]. exists [], []. by rewrite !app_nil_r.
  - rewrite for_arcids_cons. destruct (uam arcid t) as [r t1] eqn:Hone.
    destruct (uam_trace arcid t t1 r Hone) as (new1 & -> & _ & Hw1 & Hs1 & Hn1).
    destruct r as [result|e|]; try done.
    intros Hrest. destruct (IH _ _ Hrest) as (new2 & done2 & -> & Hb & Hw2).
    rewrite bucket_record_result in Hb.
    assert (writes (get arcid :: new1) = writes new1) as Hget by done.
    destruct result; simpl in Hb.
    + exists ((get arcid :: new1) ++ new2), (arcid :: done2).
      rewrite <- !app_assoc. split; [done|]. split; [by rewrite Hb, <- app_assoc|].
      intros x. unfold writes in *. rewrite omap_app, elem_of_app, Hget, elem_of_cons, Hw2.
      split; [intros [Hx|Hx]; [left; by apply Hw1|by right]|].
      intros [->|Hx]; [left; by apply Hs1|by right].
    + exists ((get arcid :: new1) ++ new2), done2.
      rewrite <- !app_assoc. split; [done|]. split; [done|].
      intros x. unfold writes in *. rewrite omap_app, elem_of_app, Hget, Hw2.
      rewrite (Hn1 eq_refl). split; [intros [Hx|Hx]; [by apply elem_of_nil in Hx|done]|by right].
Qed.

End LedgerMore.

Section TopMore.

Variable set_iter : list string -> list string.
Variable lrr : LRRClient.
Variable db : Database.

(** X19: the mapping a run returns has no key but [SUCCESS] and
    [PIXIVUTIL_NO_METADATA] and no empty bucket; its two buckets together
    are the listed archives, each as often as listed, and each bucket
    keeps the listed order. *)
Theorem run_result_ledger (t t' : list Event) (m : gmap string (list string)) :
  update_lrr_metadata set_iter lrr db t = (Ret m, t') ->
  exists arcids,
    get_untagged_archives lrr (S (n_calls t)) = inr arcids
    /\ (forall k, is_Some (m !! k) -> k = "SUCCESS" \/ k = "PIXIVUTIL_NO_METADATA")
    /\ (forall k, m !! k <> Some [])
    /\ bucket m "SUCCESS" ++ bucket m "PIXIVUTIL_NO_METADATA" ≡ₚ arcids
    /\ bucket m "SUCCESS" `sublist_of` arcids
    /\ bucket m "PIXIVUTIL_NO_METADATA" `sublist_of` arcids.
Proof.
  intros (_ & _ & arcids & Hun & Hrun)%update_lrr_metadata_ret_inv.
  exists arcids. split; [done|].
  destruct (for_arcids_ledger set_iter lrr db arcids ∅ m _ t' Hrun)
    as (Hkeys & Hempty & done_ & skipped & HS & HN & Hperm & Hsub1 & Hsub2).
  unfold bucket in HS, HN. rewrite !lookup_empty in HS, HN. simpl in HS, HN.
  fold (bucket m "SUCCESS") in HS. fold (bucket m "PIXIVUTIL_NO_METADATA") in HN.
  rewrite HS, HN. split; [|split; [|done]].
  - intros k Hk. destruct (Hkeys k Hk) as [Hk0|Hk0]; [|done].
    rewrite lookup_empty in Hk0. by destruct Hk0.
  - intros k Hk. apply Hempty in Hk. by rewrite lookup_empty in Hk.
Qed.

(** X20: in a run that completes, the archives with an update call are
    exactly the archives of the [SUCCESS] bucket. *)
Theorem run_success_bucket_is_written (t t' : list Event)
    (m : gmap string (list string)) :
  update_lrr_metadata set_iter lrr db t = (Ret m, t') ->
  exists new,
    t' = t ++ [Call GetShinobuStatus; Call GetUntaggedArchives] ++ new
    /\ forall arcid, arcid ∈ writes new <-> arcid ∈ bucket m "SUCCESS".
Proof.
  intros (_ & _ & arcids & Hun & Hrun)%update_lrr_metadata_ret_inv.
  destruct (for_arcids_written set_iter lrr db arcids ∅ m _ t' Hrun)
    as (new & done_ & -> & Hb & Hw).
  exists new. rewrite <- app_assoc. split; [done|].
  intros arcid. rewrite Hw, Hb. unfold bucket. rewrite lookup_empty. done.
Qed.

(** X21: a run returns a mapping only if the session check passed, all
    seven tables exist and the listing succeeded; its events start with
    the check and the listing, and every listed archive was read. *)
Theorem run_checks_first (t t' : list Event) (m : gmap string (list string)) :
  update_lrr_metadata set_iter lrr db t = (Ret m, t') ->
  get_shinobu_status lrr (n_calls t) = None
  /\ Forall (fun tb_name => fetchone (select_table db tb_name) <> None) required_tables
  /\ exists arcids new,
       get_untagged_archives lrr (S (n_calls t)) = inr arcids
       /\ t' = t ++ [Call GetShinobuStatus; Call GetUntaggedArchives] ++ new
       /\ reads new = arcids.
Proof.
  intros (Hs & Htb & arcids & Hun & Hrun)%update_lrr_metadata_ret_inv.
  split; [done|]. split; [done|].
  destruct (for_arcids_reads set_iter lrr db arcids ∅ _ t' _ Hrun)
    as (new & -> & _ & Hall & _).
  exists arcids, new. rewrite <- app_assoc. split; [done|]. split; [done|]. by eapply Hall.
Qed.

(** X22: when the listing of untagged archives returns an error, the run
    raises the exception of line 182 after the check and the listing,
    with no archive read. *)
Theorem untagged_listing_failure (t : list Event) (err : LRRError) :
  get_shinobu_status lrr (n_calls t) = None ->
  Forall (fun tb_name => fetchone (select_table db tb_name) <> None) required_tables ->
  get_untagged_archives lrr (S (n_calls t)) = inl err ->
  update_lrr_metadata set_iter lrr db t
  = (Raise (Exception ("Failed to get untagged archives: " +:+ error err)),
     t ++ [Call GetShinobuStatus; Call GetUntaggedArchives]).
Proof.
  intros Hs Htb Hun. unfold update_lrr_metadata, bind at 1, remote at 1.
  rewrite Hs. unfold bind at 1. rewrite for_required_tables_present by done.
  unfold bind, remote. rewrite n_calls_call, Hun. by rewrite <- app_assoc.
Qed.

(** X23: with no untagged archive the run returns the empty mapping
    after the check and the listing. *)
Theorem no_untagged_archives (t : list Event) :
  get_shinobu_status lrr (n_calls t) = None ->
  Forall (fun tb_name => fetchone (select_table db tb_name) <> None) required_tables ->
  get_untagged_archives lrr (S (n_calls t)) = inr [] ->
  update_lrr_metadata set_iter lrr db t
  = (Ret ∅, t ++ [Call GetShinobuStatus; Call GetUntaggedArchives]).
Proof.
  intros Hs Htb Hun. by rewrite (update_lrr_metadata_run set_iter lrr db t []).
Qed.

End TopMore.

(** ** The further properties on examples *)

Lemma sanitize_tag_alphabet_witness :
  Py.contains ":" (sanitize_tag "a:b_c") = false.
Proof. apply (sanitize_tag_alphabet "a:b_c" ":"). left. reflexivity. Defined.

Lemma sanitize_tag_kept_characters_witness :
  Py.contains "," (sanitize_tag "a_b,c") = Py.contains "," "a_b,c".
Proof. by apply (sanitize_tag_kept_characters "a_b,c" ","). Defined.

Lemma retry_loop_transient_then_success_witness :
  retry_loop (scripted_lrr "pixiv_12345" "" 0 [locked; timed_out])
    5 "abc123" "T" "tags" "C" 0 []
  = (Ret tt,
     let update := Call (UpdateArchiveMetadata "abc123" "T" "tags" "C") in
     [update; Sleep 2; update; Sleep 4; update]).
Proof.
  refine (proj1 (retry_loop_transient_then_success
                   (scripted_lrr "pixiv_12345" "" 0 [locked; timed_out])
                   "abc123" "T" "tags" "C" 2 [] _ _ _)); [lia| |reflexivity].
  intros i Hi. destruct i as [|[|i]]; [reflexivity..|lia].
Defined.

Lemma retry_loop_network_exhausted_witness :
  retry_loop (scripted_lrr "pixiv_12345" "" 0 [locked; timed_out; locked; timed_out; timed_out])
    5 "abc123" "T" "tags" "C" 0 []
  = (Raise TimeoutError,
     let update := Call (UpdateArchiveMetadata "abc123" "T" "tags" "C") in
     [update; Sleep 2; update; Sleep 4; update; Sleep 8; update; Sleep 16; update]).
Proof.
  refine (retry_loop_network_exhausted
            (scripted_lrr "pixiv_12345" "" 0 [locked; timed_out; locked; timed_out; timed_out])
            "abc123" "T" "tags" "C" [] TimeoutError _ _); [|reflexivity].
  intros i Hi. destruct i as [|[|[|[|i]]]]; [reflexivity..|lia].
Defined.

Lemma retry_loop_other_exception_witness :
  retry_loop (scripted_lrr "pixiv_12345" "" 0 [Raised key_error])
    1 "abc123" "T" "tags" "C" 3 []
  = (Raise key_error, [Call (UpdateArchiveMetadata "abc123" "T" "tags" "C")]).
Proof.
  apply (retry_loop_other_exception
           (scripted_lrr "pixiv_12345" "" 0 [Raised key_error])
           "abc123" "T" "tags" "C" 0 3 [] key_error); reflexivity.
Defined.

(** An exception of a subclass of a named class is caught like the
    class itself: the call is tried again after the sleep. *)
Example retry_loop_subclass_is_retried :
  transient_network server_timeout_error = true
  /\ retry_loop (scripted_lrr "pixiv_12345" "" 0 [Raised server_timeout_error])
       5 "abc123" "T" "tags" "C" 0 []
     = (Ret tt, [Call (UpdateArchiveMetadata "abc123" "T" "tags" "C"); Sleep 2;
                 Call (UpdateArchiveMetadata "abc123" "T" "tags" "C")]).
Proof.
  split; reflexivity.
Qed.

Lemma update_archive_metadata_success_inv_witness :
  exists (title pushed summary : string) (before : list Event),
    [Call (GetArchiveMetadata "abc123");
     Call (UpdateArchiveMetadata "abc123" "T" scenario_pushed "C")]
    = before ++ [Call (UpdateArchiveMetadata "abc123" title pushed summary)]
    /\ update_archive_metadata_api (scripted_lrr "pixiv_12345" "" 1 [])
         (n_calls before) "abc123" title pushed summary = Replied None.
Proof.
  apply (update_archive_metadata_success_inv first_seen
           (scripted_lrr "pixiv_12345" "" 1 []) scenario_db "abc123" []).
  reflexivity.
Defined.

Lemma update_archive_metadata_skip_inv_witness :
  exists response pixiv_id,
    get_archive_metadata (scripted_lrr "pixiv_999" "" 1 []) 0 "abc123" = inr response
    /\ parse_pixiv_id (filename response) = Ret pixiv_id
    /\ fetchone (select_master_image scenario_db pixiv_id) = None.
Proof.
  refine (proj2 (update_archive_metadata_skip_inv first_seen
                   (scripted_lrr "pixiv_999" "" 1 []) scenario_db "abc123" []
                   [Call (GetArchiveMetadata "abc123")] _)).
  reflexivity.
Defined.

Lemma metadata_read_failure_aborts_witness :
  for_arcids first_seen failing_reads_lrr scenario_db ["a1"; "a2"] ∅ []
  = (Raise (Exception "Failed to get archive metadata: no such archive"),
     [Call (GetArchiveMetadata "a1")]).
Proof.
  refine (proj2 (metadata_read_failure_aborts first_seen failing_reads_lrr scenario_db
                   "a1" ["a2"] ∅ [] {| status := 404; error := "no such archive" |} _)).
  reflexivity.
Defined.

Lemma existing_tags_are_kept_witness :
  exists pushed : string,
    "date_added:500" ∈ Py.split "," pushed /\ "favourite" ∈ Py.split "," pushed.
Proof.
  destruct (existing_tags_are_kept first_seen
              (scripted_lrr "pixiv_12345" "date_added:500, favourite" 1 []) scenario_db
              "abc123" []
              {| filename := "pixiv_12345"; tags := "date_added:500, favourite" |}
              12345 12345 7 "T" "C" "Foo_Bar")
    as (pushed & _ & _ & _ & Hkept);
    [exact first_seen_iterates_set | reflexivity..|].
  exists pushed. split; apply Hkept; vm_compute.
  - left.
  - right. left.
Defined.

Lemma for_arcids_reads_in_order_witness :
  exists new : list Event, two_archive_events = [] ++ new /\ reads new = ["a1"; "a2"].
Proof.
  destruct (for_arcids_reads_in_order first_seen two_archive_lrr scenario_db
              ["a1"; "a2"] ∅ [] two_archive_events (Ret two_archive_result))
    as (new & Hnew & _ & Hall & _); [vm_compute; reflexivity|].
  exists new. split; [exact Hnew|]. by eapply Hall.
Defined.

Lemma run_result_ledger_witness :
  exists arcids : list string,
    get_untagged_archives two_archive_lrr 1 = inr arcids
    /\ bucket two_archive_result "SUCCESS"
         ++ bucket two_archive_result "PIXIVUTIL_NO_METADATA" ≡ₚ arcids.
Proof.
  destruct (run_result_ledger first_seen two_archive_lrr scenario_db []
              ([Call GetShinobuStatus; Call GetUntaggedArchives] ++ two_archive_events)
              two_archive_result)
    as (arcids & Hun & _ & _ & Hperm & _); [vm_compute; reflexivity|].
  by exists arcids.
Defined.

Lemma run_success_bucket_is_written_witness :
  exists new : list Event,
    forall arcid, arcid ∈ writes new <-> arcid ∈ bucket two_archive_result "SUCCESS".
Proof.
  destruct (run_success_bucket_is_written first_seen two_archive_lrr scenario_db []
              ([Call GetShinobuStatus; Call GetUntaggedArchives] ++ two_archive_events)
              two_archive_result)
    as (new & _ & Hw); [vm_compute; reflexivity|].
  by exists new.
Defined.

Lemma run_checks_first_witness :
  get_shinobu_status two_archive_lrr 0 = None
  /\ Forall (fun tb_name => fetchone (select_table scenario_db tb_name) <> None)
       required_tables.
Proof.
  destruct (run_checks_first first_seen two_archive_lrr scenario_db []
              ([Call GetShinobuStatus; Call GetUntaggedArchives] ++ two_archive_events)
              two_archive_result)
    as (Hs & Htb & _); [vm_compute; reflexivity|].
  by split.
Defined.

Lemma untagged_listing_failure_witness :
  update_lrr_metadata first_seen failing_reads_lrr scenario_db []
  = (Raise (Exception "Failed to get untagged archives: listing failed"),
     [Call GetShinobuStatus; Call GetUntaggedArchives]).
Proof.
  apply (untagged_listing_failure first_seen failing_reads_lrr scenario_db []
           {| status := 500; error := "listing failed" |});
    [reflexivity | by apply (bool_decide_unpack _) | reflexivity].
Defined.

Lemma no_untagged_archives_witness :
  update_lrr_metadata first_seen idle_lrr scenario_db []
  = (Ret ∅, [Call GetShinobuStatus; Call GetUntaggedArchives]).
Proof.
  apply (no_untagged_archives first_seen idle_lrr scenario_db []);
    [reflexivity | by apply (bool_decide_unpack _) | reflexivity].
Defined.
